(** * Interview-Practice-Agent: orchestrator, hesitation recovery and HTTP
    endpoints of [app/interview_agent.py] and [app/main.py].

    Python [str] values are modelled as [string] (the UTF-8 bytes of the
    text). [strip], [lower], [len] and the regular expression of
    [is_hesitation] are modelled on the ASCII range, where one byte is one
    character; bytes above 127 are left alone by [lower] and are never
    whitespace. Python [int] is [Z]. *)

From Stdlib Require Import ZArith QArith Ascii String List Lia Bool.
From Stdlib Require Import DecimalString.
From stdpp Require Import base option list gmap strings.

Local Open Scope string_scope.
Local Open Scope Z_scope.

(* ================================================================== *)
(** ** Python string helpers *)
(* ================================================================== *)

Module PyStr.

Definition chr (n : nat) : string := String (ascii_of_nat n) EmptyString.

(** line feed and the double quote character *)
Definition nl : string := chr 10.
Definition dq : string := chr 34.

(** [str.isspace] on ASCII: TAB LF VT FF CR, FS GS RS US, SPACE. *)
Definition is_space (c : ascii) : bool :=
  let n := nat_of_ascii c in
  ((9 <=? n)%nat && (n <=? 13)%nat) || ((28 <=? n)%nat && (n <=? 32)%nat).

Definition is_upper (c : ascii) : bool :=
  let n := nat_of_ascii c in (65 <=? n)%nat && (n <=? 90)%nat.

Definition is_lower (c : ascii) : bool :=
  let n := nat_of_ascii c in (97 <=? n)%nat && (n <=? 122)%nat.

Definition is_digit (c : ascii) : bool :=
  let n := nat_of_ascii c in (48 <=? n)%nat && (n <=? 57)%nat.

Definition lower_char (c : ascii) : ascii :=
  if is_upper c then ascii_of_nat (nat_of_ascii c + 32) else c.

(** [s.lower()] *)
Fixpoint lower (s : string) : string :=
  match s with
  | EmptyString => EmptyString
  | String c r => String (lower_char c) (lower r)
  end.

(** [s.lstrip()] *)
Fixpoint lstrip (s : string) : string :=
  match s with
  | EmptyString => EmptyString
  | String c r => if is_space c then lstrip r else s
  end.

(** [s.rstrip()]: the string is empty again from the first position after
    which only whitespace follows. *)
Fixpoint rstrip (s : string) : string :=
  match s with
  | EmptyString => EmptyString
  | String c r =>
      match rstrip r with
      | EmptyString => if is_space c then EmptyString else String c EmptyString
      | r' => String c r'
      end
  end.

(** [s.strip()] *)
Definition strip (s : string) : string := rstrip (lstrip s).

(** [len(s)] *)
Definition len (s : string) : Z := Z.of_nat (String.length s).

Fixpoint forall_chars (p : ascii -> bool) (s : string) : bool :=
  match s with
  | EmptyString => true
  | String c r => p c && forall_chars p r
  end.

(** Python truthiness of a [str]. *)
Definition truthy (s : string) : bool :=
  match s with EmptyString => false | _ => true end.

End PyStr.
Import PyStr.

(* ================================================================== *)
(** ** Hesitation classifier ([interview_agent.py], lines 336-367) *)
(* ================================================================== *)

Definition MAX_HESITATION_COUNT : Z := 3.

Definition HESITATION_PHRASES : gset string :=
  {[ EmptyString; " "; "..."; "."; "..";
     "uh"; "uhh"; "um"; "umm"; "hmm"; "huh"; "mm";
     "idk"; "i don't know"; "i dont know"; "dont know"; "no idea";
     "no"; "nah"; "nope"; "skip"; "next"; "none" ]}.

Definition POSITIVE_SHORTS : gset string :=
  {[ "yes"; "y"; "ok"; "okay"; "sure"; "fine"; "good" ]}.

(** [re.fullmatch(r'[^a-zA-Z0-9\s]+', text)]: one or more characters, none
    of them a letter, a digit or whitespace. *)
Definition noise_char (c : ascii) : bool :=
  negb (is_lower c || is_upper c || is_digit c || is_space c).

Definition fullmatch_noise (text : string) : bool :=
  truthy text && forall_chars noise_char text.

Definition is_hesitation (answer : option string) : bool :=
  match answer with
  | None => true
  | Some answer =>
      let text := lower (strip answer) in
      if String.eqb text EmptyString then true
      else if bool_decide (text ∈ HESITATION_PHRASES) then true
      else if (len text =? 1) && negb (bool_decide (text ∈ ({[ "y"; "n" ]} : gset string))) then true
      else if (len text <=? 2) && negb (bool_decide (text ∈ POSITIVE_SHORTS)) then true
      else if (len text <=? 4) && fullmatch_noise text then true
      else false
  end.

(** The three-way classification made by the answer loop of
    [run_console_interview] (lines 411-448): the quick accept of a short
    affirmative comes first, then [is_hesitation], then acceptance. (The
    loop intercepts the exit words before this; see [answer_loop].) *)
Inductive Classification := Hesitant | PositiveShort | Substantive.

Definition classify (raw : string) : Classification :=
  if bool_decide (lower (strip raw) ∈ POSITIVE_SHORTS) then PositiveShort
  else if is_hesitation (Some raw) then Hesitant
  else Substantive.

(* ================================================================== *)
(** ** Python [repr] of a list of [str] (used by the f-string of
    [followup_agent]) *)
(* ================================================================== *)

Module PyRepr.

Fixpoint contains_char (c : ascii) (s : string) : bool :=
  match s with
  | EmptyString => false
  | String d r => Ascii.eqb c d || contains_char c r
  end.

Definition hex_digit (n : nat) : string :=
  String (ascii_of_nat (if (n <? 10)%nat then 48 + n else 87 + n)) EmptyString.

Definition bs : string := chr 92.
Definition sq : ascii := ascii_of_nat 39.

Definition escape_char (quote : ascii) (c : ascii) : string :=
  let n := nat_of_ascii c in
  if Ascii.eqb c quote then bs +:+ String c EmptyString
  else if (n =? 92)%nat then bs +:+ bs
  else if (n =? 9)%nat then bs +:+ "t"
  else if (n =? 10)%nat then bs +:+ "n"
  else if (n =? 13)%nat then bs +:+ "r"
  else if (n <? 32)%nat || (n =? 127)%nat then
    bs +:+ "x" +:+ hex_digit (n / 16) +:+ hex_digit (n mod 16)
  else String c EmptyString.

Fixpoint escape (quote : ascii) (s : string) : string :=
  match s with
  | EmptyString => EmptyString
  | String c r => escape_char quote c +:+ escape quote r
  end.

(** [repr(s)]: single quotes, unless the text has a single quote and no
    double quote. *)
Definition repr_str (s : string) : string :=
  let quote :=
    if contains_char sq s && negb (contains_char (ascii_of_nat 34) s)
    then ascii_of_nat 34 else sq in
  String quote EmptyString +:+ escape quote s +:+ String quote EmptyString.

Fixpoint join (sep : string) (l : list string) : string :=
  match l with
  | [] => EmptyString
  | [x] => x
  | x :: r => x +:+ sep +:+ join sep r
  end.

(** [repr(l)] for [l : List[str]] *)
Definition repr_list (l : list string) : string :=
  "[" +:+ join ", " (map repr_str l) +:+ "]".

End PyRepr.

(* ================================================================== *)
(** ** State definition *)
(* ================================================================== *)

(** One entry of [qa_pairs]: the dict [{"question": q, "answer": a}]. *)
Record qa := QA { qa_question : string; qa_answer : string }.

(** One chat message: the dict [{"role": r, "content": c}]. *)
Record message := Msg { msg_role : string; content : string }.

Record InterviewState := mkState {
  role : string;
  max_questions : Z;
  main_questions_asked : Z;
  qa_pairs : list qa
}.

(** [InterviewState(role=role, max_questions=max_questions)] *)
Definition new_state (role : string) (max_questions : Z) : InterviewState :=
  mkState role max_questions 0 [].

(** Exceptions the modelled code can raise. [GenerationFailure] stands for
    any [Exception] coming out of the Groq client call. *)
Inductive exn :=
| IndexError
| GenerationFailure (what : string)
| HTTPException (status_code : Z) (detail : string).

(** One recorded call of the chat completion API. *)
Record call := Call { call_messages : list message; call_temperature : Q }.

(** What happens on the terminal: a [print(text)], or an [input(prompt)]
    that reads [line]. *)
Inductive event :=
| Printed (text : string)
| Read (prompt line : string).

(** What the code of [interview_agent.py] works on. [state] and [history]
    are the two mutable Python objects a caller passes in (and gets back:
    the returned tuple aliases them); [calls] logs the gateway calls and
    [console] the terminal. *)
Record World := mkWorld {
  state : InterviewState;
  history : list message;
  calls : list call;
  console : list event
}.

Inductive outcome (A : Type) :=
| Returned (a : A) (w : World)
| Raised (e : exn) (w : World).
Arguments Returned {A} a w.
Arguments Raised {A} e w.

Definition final_world {A} (o : outcome A) : World :=
  match o with Returned _ w => w | Raised _ w => w end.

(** State-and-exception monad: a raise keeps the mutations made so far. *)
Definition M (A : Type) : Type := World -> outcome A.

#[global] Instance M_ret : MRet M := fun A a w => Returned a w.
#[global] Instance M_bind : MBind M := fun A B f m w =>
  match m w with
  | Returned a w' => f a w'
  | Raised e w' => Raised e w'
  end.

Definition raise {A} (e : exn) : M A := fun w => Raised e w.
Definition get_state : M InterviewState := fun w => Returned (state w) w.
Definition get_history : M (list message) := fun w => Returned (history w) w.

(** [print(text)] *)
Definition print (text : string) : M unit :=
  fun w => Returned tt (mkWorld (state w) (history w) (calls w) (console w ++ [Printed text])%list).

(** [input(prompt)] when the user types [line] *)
Definition input (prompt line : string) : M unit :=
  fun w => Returned tt (mkWorld (state w) (history w) (calls w) (console w ++ [Read prompt line])%list).

(** [history.append(m)] *)
Definition history_append (m : message) : M unit :=
  fun w => Returned tt (mkWorld (state w) (history w ++ [m])%list (calls w) (console w)).

(** [try: body  except Exception: handler] *)
Definition try_except {A} (body : M A) (handler : M A) : M A := fun w =>
  match body w with
  | Returned a w' => Returned a w'
  | Raised _ w' => handler w'
  end.

(* ================================================================== *)
(** ** Agents *)
(* ================================================================== *)

Definition TIMEOUT_SYSTEM_PROMPT : string :=
  "
You are a Silence Recovery Agent.

You detect when the candidate:
- does not answer for a while,
- gives an empty or unhelpful answer,
- is confused or stuck,
- hesitates or goes silent.

Your job:
- Politely re-engage them.
- Ask if they need the question repeated.
- Offer help like: hints, clarification, or a simpler phrasing.
- Keep responses short, friendly, and supportive.
- NEVER pressure the candidate.
- Example responses:
  - " +:+ dq +:+ "Are you still there? Take your time — would you like me to repeat the question?" +:+ dq +:+ "
  - " +:+ dq +:+ "I didn't catch that. Would you like me to repeat or give a hint?" +:+ dq +:+ "
  - " +:+ dq +:+ "No worries, take a moment. Should I repeat the question?" +:+ dq +:+ "
Return a single short sentence or question suitable to be spoken aloud.
".

Definition INTERVIEWER_SYSTEM_PROMPT (role : string) : string :=
  ("
You are an Interviewer Agent for the role: ") +:+ role +:+
  (".

INTERVIEW FLOW (STRICT):

1. FIRST QUESTION — ALWAYS:
   " +:+ dq +:+ "Can you introduce yourself?" +:+ dq +:+ "

   Do NOT use any other opening question.
   Do NOT randomize.
   This must be the very first question of every interview.

2. AFTER INTRODUCTION:
   Based on the candidate’s introduction, ask relevant follow-up questions about:
   - Their skills
   - Their education background
   - Their experience (internships, projects)
   - Technologies they mentioned
   - Strengths relevant to the role

   Ask 1–3 follow-ups depending on how detailed their introduction is.
   Do NOT be repetitive.

3. MAIN INTERVIEW — ONLY AFTER INTRODUCTION FOLLOW-UPS:
   Transition naturally into deeper questions such as:
   - Role-specific technical skills
   - Projects related to the role
   - System design (if Software Engineer)
   - Problem-solving and coding practices
   - Behavioral questions (STAR)
   - Scenario questions

4. RULES:
   - Ask only ONE question at a time.
   - Do NOT repeat any previous question.
   - Do NOT paraphrase the same question in different words.
   - Do NOT ask introduction again after the first time.
   - Keep questions relevant to the candidate’s background.
   - Make questions aligned with the role: ") +:+ role +:+
  (".
").

Definition FOLLOWUP_SYSTEM_PROMPT : string :=
  "
You are a Follow-up Agent for a job interview.

You receive:
- The last main question.
- The candidate’s answer.
- A list of ALL previous questions asked (main + follow-ups).

Your job:
- Decide if a NEW follow-up is needed to probe deeper.
- If needed, generate ONE specific follow-up question.

IMPORTANT RULES:

1. DEPTH:
   - If the answer is incomplete, vague, or off-topic → ask a follow-up.
   - You may ask multiple follow-ups (1 at a time).

2. NO REPETITION:
   - DO NOT repeat or rephrase any previous question.
   - Compare your new question against all previous questions; 
     if it is similar → DO NOT ask it.
   - If ANY similar question exists → output EXACTLY: NONE

3. EDGE-CASE HANDLING:
   - If the answer is irrelevant or does not address the question, 
     ask a clarifying follow-up, BUT still follow the no-duplicate rule.

4. USER REFUSAL:
   - If user clearly says: “I don’t know”, “move on”, “skip”, “no experience”, 
     “next question”, or refuses → output EXACTLY: NONE

5. OUTPUT FORMAT:
   - If NO follow-up is needed → reply EXACTLY: NONE
   - If a follow-up is needed → output ONLY the follow-up question
     (no explanation, no comments)
".

Section Gateway.

(** The chat completion API: [client.chat.completions.create(...)]
    followed by [.choices[0].message.content]. It either gives the raw
    content or raises. The model name is fixed by the configuration. *)
Variable completion : list message -> Q -> exn + string.

Definition chat_with_groq (messages : list message) (temperature : Q) : M string :=
  fun w =>
    let w' := mkWorld (state w) (history w) (calls w ++ [Call messages temperature])%list (console w) in
    match completion messages temperature with
    | inl e => Raised e w'
    | inr text => Returned (strip text) w'
    end.

Definition TIMEOUT_FALLBACK : string :=
  "Are you still there? Take your time — would you like me to repeat the question?".

(** The [messages] of [timeout_agent] *)
Definition timeout_messages : list message :=
  [ Msg "system" TIMEOUT_SYSTEM_PROMPT;
    Msg "user" "The candidate has been silent or unresponsive. Provide a friendly one-line prompt to re-engage them." ].

Definition timeout_agent : M string :=
  let messages := timeout_messages in
  try_except (chat_with_groq messages (7 # 10)) (mret TIMEOUT_FALLBACK).

(** The [messages] of [interviewer_agent] *)
Definition interviewer_messages (st : InterviewState) (hist : list message) : list message :=
  let system_prompt := INTERVIEWER_SYSTEM_PROMPT (role st) in
  ([Msg "system" system_prompt] ++ hist)%list.

Definition interviewer_agent (st : InterviewState) (hist : list message) : M string :=
  let messages := interviewer_messages st hist in
  question ← chat_with_groq messages (7 # 10);
  mret question.

(** The [messages] of [followup_agent] *)
Definition followup_messages (last_question last_answer : string)
    (previous_questions : list string) : list message :=
  let user_content :=
    nl +:+ "Main Question: " +:+ last_question +:+ nl +:+
    "Candidate Answer: " +:+ last_answer +:+ nl +:+ nl +:+
    "All Previous Questions:" +:+ nl +:+
    PyRepr.repr_list previous_questions +:+ nl +:+
    "Decide if a follow-up question is needed." in
  [ Msg "system" FOLLOWUP_SYSTEM_PROMPT; Msg "user" user_content ].

Definition followup_agent (last_question last_answer : string)
    (previous_questions : list string) : M string :=
  let messages := followup_messages last_question last_answer previous_questions in
  reply ← chat_with_groq messages (4 # 10);
  mret (strip reply).

(* ================================================================ *)
(** ** Orchestrator *)
(* ================================================================ *)

(** [state.qa_pairs[-1]["answer"] = a]; [IndexError] on an empty list. *)
Definition set_last_answer (a : string) : M unit := fun w =>
  let st := state w in
  match last (qa_pairs st) with
  | None => raise IndexError w
  | Some e =>
      let qs := <[ (length (qa_pairs st) - 1)%nat := QA (qa_question e) a ]> (qa_pairs st) in
      Returned tt
        (mkWorld (mkState (role st) (max_questions st) (main_questions_asked st) qs)
                 (history w) (calls w) (console w))
  end.

(** [state.qa_pairs[-1]["question"]] *)
Definition last_question : M string := fun w =>
  match last (qa_pairs (state w)) with
  | None => raise IndexError w
  | Some e => Returned (qa_question e) w
  end.

(** [state.main_questions_asked += 1] *)
Definition incr_main_questions_asked : M unit := fun w =>
  let st := state w in
  Returned tt
    (mkWorld (mkState (role st) (max_questions st) (main_questions_asked st + 1) (qa_pairs st))
             (history w) (calls w) (console w)).

(** [state.qa_pairs.append(e)] *)
Definition qa_pairs_append (e : qa) : M unit := fun w =>
  let st := state w in
  Returned tt
    (mkWorld (mkState (role st) (max_questions st) (main_questions_asked st) (qa_pairs st ++ [e])%list)
             (history w) (calls w) (console w)).

(** [x is None] *)
Definition is_none {A} (x : option A) : bool :=
  match x with None => true | Some _ => false end.

(** The returned tuple [(state, history, next_message, is_finished)]:
    its first two components are the mutated argument objects. *)
Definition step_result : Type :=
  InterviewState * list message * option string * bool.

Definition return_step (next_message : option string) (is_finished : bool) : M step_result :=
  fun w => Returned (state w, history w, next_message, is_finished) w.

Definition orchestrator_step (user_answer : option string) : M step_result :=
  st ← get_state;
  if is_none user_answer && (main_questions_asked st =? 0) then
    history_append (Msg "user" "Start the interview and ask the first question.");;
    st ← get_state; hist ← get_history;
    question ← interviewer_agent st hist;
    history_append (Msg "assistant" question);;
    incr_main_questions_asked;;
    qa_pairs_append (QA question EmptyString);;
    return_step (Some question) false
  else
    match user_answer with
    | Some user_answer =>
        set_last_answer user_answer;;
        history_append (Msg "user" user_answer);;
        last_q ← last_question;
        st ← get_state;
        let all_questions :=
          map qa_question (filter (λ e, truthy (qa_question e) = true) (qa_pairs st)) in
        followup ← followup_agent last_q user_answer all_questions;
        if negb (String.eqb followup "NONE") then
          history_append (Msg "assistant" followup);;
          qa_pairs_append (QA followup EmptyString);;
          return_step (Some followup) false
        else
          st ← get_state;
          if main_questions_asked st >=? max_questions st then
            return_step None true
          else
            st ← get_state; hist ← get_history;
            question ← interviewer_agent st hist;
            history_append (Msg "assistant" question);;
            incr_main_questions_asked;;
            qa_pairs_append (QA question EmptyString);;
            return_step (Some question) false
    | None =>
        return_step None true
    end.

(* ================================================================ *)
(** ** Console interview: the answer loop *)
(* ================================================================ *)

Definition supportive_repeat_text (original_question : string) : string :=
  "No problem, let me repeat the question so you can answer comfortably:" +:+ nl +:+
  original_question.

(** [print(f"\nInterviewer: {msg}\n")] *)
Definition interviewer_says (msg : string) : M unit :=
  print (nl +:+ "Interviewer: " +:+ msg +:+ nl).

Definition SKIP_MESSAGE : string := "No worries, let's move to the next question.".
Definition SKIP_MARKER : string := "No response / skipped".

(** [x or default] for an [Optional[str]] *)
Definition or_default (x : option string) (default : string) : string :=
  match x with
  | Some s => if truthy s then s else default
  | None => default
  end.

(** How the inner [while True] loop (lines 402-448) stands after the
    utterances typed so far: it broke out on an exit word, it broke out
    with [captured_answer] set, or it is blocked in [input] again. *)
Inductive loop_end :=
| Exit
| Captured (captured_answer : string)
| AwaitingInput (hesitation_count : Z).

Fixpoint answer_loop (current_question : option string) (hesitation_count : Z)
    (inputs : list string) : M loop_end :=
  match inputs with
  | [] => mret (AwaitingInput hesitation_count)
  | user_input :: inputs =>
      input "You: " user_input;;
      if bool_decide (lower (strip user_input) ∈ ["exit"; "quit"; "stop"]) then
        print (nl +:+ "✅ Ending interview early as requested." +:+ nl);;
        mret Exit
      else if bool_decide (lower (strip user_input) ∈ POSITIVE_SHORTS) then
        mret (Captured (strip user_input))
      else if is_hesitation (Some user_input) then
        let hesitation_count := hesitation_count + 1 in
        if hesitation_count =? 1 then
          reengage_msg ← timeout_agent;
          interviewer_says reengage_msg;;
          answer_loop current_question hesitation_count inputs
        else if hesitation_count =? 2 then
          let repeat_msg :=
            supportive_repeat_text (or_default current_question "Can you elaborate?") in
          interviewer_says repeat_msg;;
          history_append (Msg "assistant" repeat_msg);;
          answer_loop current_question hesitation_count inputs
        else
          interviewer_says SKIP_MESSAGE;;
          mret (Captured SKIP_MARKER)
      else
        mret (Captured (strip user_input))
  end.

(** The current question of one round of the main loop (lines 396-399) *)
Definition current_question_of (st : InterviewState) : option string :=
  qa_question <$> last (qa_pairs st).

(** One round of the main [while not finished] loop (lines 390-459) on
    the utterances typed during it: a fresh hesitation counter, the answer
    loop, then the orchestrator with the captured answer (utterances
    after the one that ends the answer loop belong to later rounds and are
    not read). The result is
    the new value of [finished], or [None] while the round still waits
    for input. *)
Definition console_round (inputs : list string) : M (option bool) :=
  st ← get_state;
  r ← answer_loop (current_question_of st) 0 inputs;
  match r with
  | AwaitingInput _ => mret None
  | Exit => mret (Some true)
  | Captured captured_answer =>
      '(_, _, bot_msg, finished) ← orchestrator_step (Some captured_answer);
      (if truthy (default EmptyString bot_msg)
       then interviewer_says (default EmptyString bot_msg)
       else mret tt);;
      mret (Some finished)
  end.

(* ================================================================ *)
(** ** HTTP endpoints ([main.py]) *)
(* ================================================================ *)

(** A value of [SESSIONS]: the dict with keys ["state"], ["history"] and
    ["finished"]; [start_interview] and [answer], the only writers, always
    store all three. *)
Record session_data := mkSession {
  sd_state : InterviewState;
  sd_history : list message;
  sd_finished : bool
}.

(** The web application: the session registry and the gateway call log. *)
Record App := mkApp {
  SESSIONS : gmap string session_data;
  app_calls : list call
}.

Inductive response (A : Type) :=
| Replied (a : A) (app : App)
| Failed (e : exn) (app : App).
Arguments Replied {A} a app.
Arguments Failed {A} e app.

Record StartRequest := mkStartRequest { req_role : string; req_max_questions : Z }.
Record StartResponse := mkStartResponse { resp_session_id : string; first_question : string }.
Record AnswerRequest := mkAnswerRequest { session_id : string; req_answer : string }.
Record AnswerResponse := mkAnswerResponse { next_message : option string; finished : bool }.

Definition get_session (sid : string) (app : App) : response session_data :=
  match SESSIONS app !! sid with
  | None => Failed (HTTPException 404 "Session not found") app
  | Some sd => Replied sd app
  end.

(** [POST /start]. [sid] is the value drawn by [str(uuid.uuid4())]. When
    the orchestrator raises, nothing is stored: the new objects are
    local. *)
Definition start_interview (sid : string) (req : StartRequest) (app : App)
    : response StartResponse :=
  let st := new_state (req_role req) (req_max_questions req) in
  match orchestrator_step None (mkWorld st [] (app_calls app) []) with
  | Raised e w => Failed e (mkApp (SESSIONS app) (calls w))
  | Returned (st, hist, bot_msg, fin) w =>
      let app' := mkApp (<[ sid := mkSession st hist fin ]> (SESSIONS app)) (calls w) in
      match bot_msg with
      | None => Failed (HTTPException 500 "Failed to generate first question") app'
      | Some bot_msg => Replied (mkStartResponse sid bot_msg) app'
      end
  end.

(** [POST /answer]. The orchestrator mutates the very objects stored in
    [SESSIONS]: when it raises, the registry holds them as they were at
    the raise, with the old ["finished"]. *)
Definition answer (req : AnswerRequest) (app : App) : response AnswerResponse :=
  match get_session (session_id req) app with
  | Failed e app => Failed e app
  | Replied sd app =>
      if sd_finished sd then
        Replied (mkAnswerResponse None true) app
      else
        match orchestrator_step (Some (req_answer req))
                (mkWorld (sd_state sd) (sd_history sd) (app_calls app) []) with
        | Raised e w =>
            Failed e
              (mkApp (<[ session_id req := mkSession (state w) (history w) (sd_finished sd) ]>
                        (SESSIONS app))
                     (calls w))
        | Returned (st, hist, bot_msg, fin) w =>
            Replied (mkAnswerResponse bot_msg fin)
              (mkApp (<[ session_id req := mkSession st hist fin ]> (SESSIONS app))
                     (calls w))
        end
  end.

End Gateway.

Arguments Replied {A} a app.
Arguments Failed {A} e app.

(* ================================================================== *)
(** ** Agent 3: feedback ([interview_agent.py], lines 203-255) *)
(* ================================================================== *)

Definition FEEDBACK_SYSTEM_PROMPT : string :=
  "
You are an Expert Interviewer in the role.

You are given:
- The role.
- A list of interview questions and the candidate's answers.

Your job:
Provide feedback in EXACTLY this structured format:

1. Overall Summary (3–5 lines)

2. Strengths
- point 1
- point 2
- point 3

3. Areas to Improve
- point 1
- point 2
- point 3

4. Suggestions & Practice Tips
- point 1
- point 2
- point 3

5. Ratings (0–10)
- Communication: x/10
- Technical / Role Knowledge: x/10
- Confidence: x/10
- Domain Expertise: x/10

Feedback should be in organizd manner.
".

(** [str(i)] for an index of [enumerate] *)
Definition str_of_nat (i : nat) : string :=
  DecimalString.NilZero.string_of_uint (Nat.to_uint i).

(** The list built by the [for i, qa in enumerate(..., start=i)] loop *)
Fixpoint qa_text_lines (i : nat) (pairs : list qa) : list string :=
  match pairs with
  | [] => []
  | e :: pairs =>
      ("Q" +:+ str_of_nat i +:+ ": " +:+ qa_question e +:+ nl +:+
       "A" +:+ str_of_nat i +:+ ": " +:+ qa_answer e +:+ nl)
      :: qa_text_lines (S i) pairs
  end.

(** The [messages] of [feedback_agent] *)
Definition feedback_messages (st : InterviewState) : list message :=
  let qa_text := PyRepr.join nl (qa_text_lines 1 (qa_pairs st)) in
  let user_content :=
    "Role: " +:+ role st +:+ nl +:+ nl +:+
    "Here are the questions and answers:" +:+ nl +:+ nl +:+
    qa_text +:+ nl +:+ nl +:+
    "Now provide feedback as per the format." in
  [ Msg "system" FEEDBACK_SYSTEM_PROMPT; Msg "user" user_content ].

Section Feedback.

Variable completion : list message -> Q -> exn + string.

Definition feedback_agent (st : InterviewState) : M string :=
  let messages := feedback_messages st in
  feedback ← chat_with_groq completion messages (3 # 10);
  mret (strip feedback).

(* ================================================================ *)
(** ** [POST /feedback] ([main.py], lines 137-151) *)
(* ================================================================ *)

Record FeedbackRequest := mkFeedbackRequest { fb_session_id : string }.
Record FeedbackResponse := mkFeedbackResponse { feedback : string }.

(** The agent receives the state object stored in [SESSIONS]; the
    registry afterwards holds that object as the agent left it. *)
Definition get_feedback (req : FeedbackRequest) (app : App) : response FeedbackResponse :=
  match get_session (fb_session_id req) app with
  | Failed e app => Failed e app
  | Replied sd app =>
      let stored w :=
        mkApp (<[ fb_session_id req := mkSession (state w) (history w) (sd_finished sd) ]>
                 (SESSIONS app))
              (calls w) in
      match feedback_agent (sd_state sd)
              (mkWorld (sd_state sd) (sd_history sd) (app_calls app) []) with
      | Raised e w => Failed e (stored w)
      | Returned text w => Replied (mkFeedbackResponse text) (stored w)
      end
  end.

(* ================================================================ *)
(** ** The console interview as a whole (lines 376-465) *)
(* ================================================================ *)

(** How [run_console_interview] stands after the utterances typed so
    far: it went through the feedback phase, or it is blocked in
    [input]. *)
Inductive run_status :=
| Done
| WaitingForInput.

(** What follows the answer loop once [captured_answer] is set (lines
    454-459), and then the next round of the main loop, [next_round]. *)
Definition after_capture (next_round : option string -> M run_status)
    (captured_answer : string) : M run_status :=
  '(_, _, bot_msg, finished) ← orchestrator_step completion (Some captured_answer);
  (if truthy (default EmptyString bot_msg)
   then interviewer_says (default EmptyString bot_msg)
   else mret tt);;
  if finished : bool then mret Done
  else
    st ← get_state;
    next_round (current_question_of st).

(** The two nested loops (lines 389-459) as one recursion on the
    utterances: [current_question] and [hesitation_count] are the variables
    of the round in progress; a new round starts with the counter at 0. *)
Fixpoint main_loop (current_question : option string) (hesitation_count : Z)
    (inputs : list string) : M run_status :=
  match inputs with
  | [] => mret WaitingForInput
  | user_input :: inputs =>
      let next_round cq := main_loop cq 0 inputs in
      input "You: " user_input;;
      if bool_decide (lower (strip user_input) ∈ ["exit"; "quit"; "stop"]) then
        print (nl +:+ "✅ Ending interview early as requested." +:+ nl);;
        mret Done
      else if bool_decide (lower (strip user_input) ∈ POSITIVE_SHORTS) then
        after_capture next_round (strip user_input)
      else if is_hesitation (Some user_input) then
        let hesitation_count := hesitation_count + 1 in
        if hesitation_count =? 1 then
          reengage_msg ← timeout_agent completion;
          interviewer_says reengage_msg;;
          main_loop current_question hesitation_count inputs
        else if hesitation_count =? 2 then
          let repeat_msg :=
            supportive_repeat_text (or_default current_question "Can you elaborate?") in
          interviewer_says repeat_msg;;
          history_append (Msg "assistant" repeat_msg);;
          main_loop current_question hesitation_count inputs
        else
          interviewer_says SKIP_MESSAGE;;
          after_capture next_round SKIP_MARKER
      else
        after_capture next_round (strip user_input)
  end.

(** [state = InterviewState(role=role, max_questions=max_questions)] and
    [history = []] *)
Definition new_interview (role : string) (max_questions : Z) : M unit :=
  fun w => Returned tt (mkWorld (new_state role max_questions) [] (calls w) (console w)).

(** The result is the feedback text, or [None] while the interview waits
    for input. *)
Definition run_console_interview (role : string) (max_questions : Z)
    (inputs : list string) : M (option string) :=
  new_interview role max_questions;;
  print (nl +:+ "🚀 Starting multi-agent mock interview for role: " +:+ role);;
  print ("(Type 'exit' anytime to stop)" +:+ nl);;
  '(_, _, bot_msg, finished) ← orchestrator_step completion None;
  (if truthy (default EmptyString bot_msg)
   then print ("Interviewer: " +:+ default EmptyString bot_msg +:+ nl)
   else mret tt);;
  status ← (if finished : bool then mret Done
            else st ← get_state; main_loop (current_question_of st) 0 inputs);
  match status with
  | WaitingForInput => mret None
  | Done =>
      print (nl +:+ "📝 Generating feedback......" +:+ nl);;
      st ← get_state;
      feedback ← feedback_agent st;
      print ("📣 FEEDBACK:" +:+ nl);;
      print feedback;;
      mret (Some feedback)
  end.

End Feedback.


(* ================================================================== *)
(** ** Notions used in the statements *)
(* ================================================================== *)

(** *** Classifier *)

(** The utterance is ASCII text: every character has a code below 128. On
    such text [strip], [lower] and [len] are exactly Python's. *)
Definition is_ascii (s : string) : bool :=
  forall_chars (fun c => (nat_of_ascii c <? 128)%nat) s.

(** The decision of [is_hesitation] on the normalised text. *)
Definition hesitant_text (text : string) : bool :=
  if String.eqb text EmptyString then true
  else if bool_decide (text ∈ HESITATION_PHRASES) then true
  else if (len text =? 1) && negb (bool_decide (text ∈ ({[ "y"; "n" ]} : gset string))) then true
  else if (len text <=? 2) && negb (bool_decide (text ∈ POSITIVE_SHORTS)) then true
  else if (len text <=? 4) && fullmatch_noise text then true
  else false.

(** *** Worlds *)

(** The world after one more gateway call is logged. *)
Definition log_call (messages : list message) (temperature : Q) (w : World) : World :=
  mkWorld (state w) (history w) (calls w ++ [Call messages temperature])%list (console w).

(** The world after [ms] are appended to the history. *)
Definition add_history (ms : list message) (w : World) : World :=
  mkWorld (state w) (history w ++ ms)%list (calls w) (console w).

(** The world after the terminal events [evs]. *)
Definition add_console (evs : list event) (w : World) : World :=
  mkWorld (state w) (history w) (calls w) (console w ++ evs)%list.

(** The world with [st] as the interview state. *)
Definition with_state (st : InterviewState) (w : World) : World :=
  mkWorld st (history w) (calls w) (console w).

(** The state after [state.qa_pairs[-1]["answer"] = a] *)
Definition answered (a : string) (st : InterviewState) : InterviewState :=
  match last (qa_pairs st) with
  | Some e =>
      mkState (role st) (max_questions st) (main_questions_asked st)
        (<[ (length (qa_pairs st) - 1)%nat := QA (qa_question e) a ]> (qa_pairs st))
  | None => st
  end.

(** The state after a question is appended to [qa_pairs], counted as a main
    question or not. *)
Definition asked (main : bool) (q : string) (st : InterviewState) : InterviewState :=
  mkState (role st) (max_questions st)
    (if main then main_questions_asked st + 1 else main_questions_asked st)
    (qa_pairs st ++ [QA q EmptyString])%list.

(** The synthetic user turn that opens the history (line 287). *)
Definition START_DIRECTIVE : message :=
  Msg "user" "Start the interview and ask the first question.".

(** [[qa["question"] for qa in state.qa_pairs if qa["question"]]] *)
Definition all_questions (st : InterviewState) : list string :=
  map qa_question (filter (λ e, truthy (qa_question e) = true) (qa_pairs st)).

(** The world after a question [q] is issued: assistant turn in the history
    and a new entry of [qa_pairs]. *)
Definition issue (main : bool) (q : string) (w : World) : World :=
  with_state (asked main q (state w)) (add_history [Msg "assistant" q] w).

(** The world in which the follow-up decision is taken: the answer is
    saved in the last entry and appended to the history. *)
Definition answer_saved (a : string) (w : World) : World :=
  add_history [Msg "user" a] (with_state (answered a (state w)) w).

(** *** Sample gateways, worlds and registries *)

(** A gateway that answers the follow-up call (temperature 0.4) with
    [followup] and every other call with [other]. *)
Definition scripted (other followup : exn + string) : list message -> Q -> exn + string :=
  fun _ temperature => if Qeq_bool temperature (4 # 10) then followup else other.

(** The sentence that [INTERVIEWER_SYSTEM_PROMPT] fixes as first question. *)
Definition INTRODUCTION_REQUEST : string := "Can you introduce yourself?".

(** The world of a fresh interview, as [run_console_interview] and
    [start_interview] build it. *)
Definition initial_world (role : string) (max_questions : Z) : World :=
  mkWorld (new_state role max_questions) [] [] [].

(** A session with a pending first question (asked, not yet answered). *)
Definition pending_world : World :=
  final_world
    (orchestrator_step (scripted (inr INTRODUCTION_REQUEST) (inr "NONE")) None
       (initial_world "Software Engineer" 5)).

(** A gateway whose every call fails. *)
Definition failing : list message -> Q -> exn + string :=
  fun _ _ => inl (GenerationFailure "timeout").

(** A registry with one finished session. *)
Definition finished_app : App :=
  mkApp {[ "s1" := mkSession (mkState "Software Engineer" 1 1
                                [QA INTRODUCTION_REQUEST "I am Ada"])
                       [START_DIRECTIVE; Msg "assistant" INTRODUCTION_REQUEST;
                        Msg "user" "I am Ada"]
                       true ]} [].

(** [print(f"\nInterviewer: {msg}\n")] as a terminal event *)
Definition said (msg : string) : event :=
  Printed (nl +:+ "Interviewer: " +:+ msg +:+ nl).

(** The re-engagement message of [timeout_agent] under gateway [llm] *)
Definition reengage_msg_of (llm : list message -> Q -> exn + string) : string :=
  match llm timeout_messages (7 # 10) with
  | inl _ => TIMEOUT_FALLBACK
  | inr text => strip text
  end.

(** The supportive repeat for the current question (line 430) *)
Definition repeat_msg_of (current_question : option string) : string :=
  supportive_repeat_text (or_default current_question "Can you elaborate?").

(** A session whose pending question has an empty text: the gateway
    answered the first call with blanks only. *)
Definition empty_question_world : World :=
  final_world
    (orchestrator_step (scripted (inr "   ") (inr "NONE")) None
       (initial_world "Software Engineer" 5)).

(** [s] does not start with whitespace. *)
Definition starts_clean (s : string) : Prop :=
  match s with
  | EmptyString => True
  | String c _ => is_space c = false
  end.

(** The registry after [/start] with a gateway that asks the introduction
    request: one session with a pending question. *)
Definition pending_app : App :=
  match start_interview (scripted (inr INTRODUCTION_REQUEST) (inr "NONE")) "s1"
          (mkStartRequest "Software Engineer" 5) (mkApp ∅ []) with
  | Replied _ app => app
  | Failed _ app => app
  end.

(** *** Runs of an interview *)

(** What can happen to the world of an interview between two moments: an
    orchestrator step, with any gateway and any (or no) answer; the
    console answer loop on any utterances; gateway calls made meanwhile for
    other sessions of the same process. *)
Inductive transition : World -> World -> Prop :=
| orchestrator_transition llm user_answer w :
    transition w (final_world (orchestrator_step llm user_answer w))
| answer_loop_transition llm cq n inputs w :
    transition w (final_world (answer_loop llm cq n inputs w))
| other_calls_transition cs w :
    transition w (mkWorld (state w) (history w) (calls w ++ cs)%list (console w)).

(** The step issued [q] as a main question: [q] is what
    [interviewer_agent] returned, called either right after the start
    directive (no answer given) or after the answer was saved and
    [followup_agent] replied NONE; the step counted it ([issue true]),
    made it the new last entry of [qa_pairs] and returned it, unfinished. A
    follow-up is not such a question: it comes from [followup_agent] and is
    not counted. *)
Definition issued_main_question llm (user_answer : option string) (w : World) (q : string)
    : Prop :=
  let w' := final_world (orchestrator_step llm user_answer w) in
  exists w1 w2,
    (user_answer = None /\ w1 = add_history [START_DIRECTIVE] w \/
     exists a e,
       user_answer = Some a /\ last (qa_pairs (state w)) = Some e /\
       followup_agent llm (qa_question e) a (all_questions (state (answer_saved a w)))
         (answer_saved a w) = Returned "NONE" w1) /\
    interviewer_agent llm (state w1) (history w1) w1 = Returned q w2 /\
    w' = issue true q w2 /\
    orchestrator_step llm user_answer w = Returned (state w', history w', Some q, false) w' /\
    last (qa_pairs (state w')) = Some (QA q EmptyString).

(** A session whose only main question is pending, with a budget of one. *)
Definition finished_world : World :=
  final_world
    (orchestrator_step (scripted (inr INTRODUCTION_REQUEST) (inr "NONE")) None
       (initial_world "Software Engineer" 1)).

(** What holds of the interview state at every moment of an interview
    for [role0] with budget [maxq]. *)
Definition well_formed (role0 : string) (maxq : Z) (st : InterviewState) : Prop :=
  role st = role0 /\
  max_questions st = maxq /\
  0 <= main_questions_asked st <= Z.max 1 maxq /\
  main_questions_asked st <= Z.of_nat (length (qa_pairs st)) /\
  (main_questions_asked st = 0 <-> qa_pairs st = []) /\
  Forall (fun e => strip (qa_question e) = qa_question e) (qa_pairs st).

(** *** The web application *)

(** The application after a request, replied or failed *)
Definition app_after {A} (r : response A) : App :=
  match r with
  | Replied _ app => app
  | Failed _ app => app
  end.

(** The world on which [/answer] and [/feedback] run the agents for a
    stored session. *)
Definition session_world (sd : session_data) (app : App) : World :=
  mkWorld (sd_state sd) (sd_history sd) (app_calls app) [].

(** What one request does to the application, for any gateway. *)
Inductive app_transition : App -> App -> Prop :=
| start_transition llm sid req app :
    app_transition app (app_after (start_interview llm sid req app))
| answer_transition llm req app :
    app_transition app (app_after (answer llm req app))
| feedback_transition llm req app :
    app_transition app (app_after (get_feedback llm req app)).

(** A stored session is sound: its state is well formed for its own role
    and budget, a first question has been asked, and it is marked finished
    only with the budget used up. *)
Definition session_sound (sd : session_data) : Prop :=
  well_formed (role (sd_state sd)) (max_questions (sd_state sd)) (sd_state sd) /\
  qa_pairs (sd_state sd) <> [] /\
  (sd_finished sd = true ->
   max_questions (sd_state sd) <= main_questions_asked (sd_state sd)).

(** *** The console *)

(** The number of utterances read so far on the terminal *)
Fixpoint reads (evs : list event) : nat :=
  match evs with
  | [] => 0
  | Read _ _ :: evs => S (reads evs)
  | Printed _ :: evs => reads evs
  end.

(** The answers stored in [qa_pairs] are usable: every entry before the
    last has an answer that [is_hesitation] does not flag, and the last one
    has such an answer or none yet. *)
Definition answers_usable (st : InterviewState) : Prop :=
  Forall (fun e => is_hesitation (Some (qa_answer e)) = false) (removelast (qa_pairs st)) /\
  (forall e, last (qa_pairs st) = Some e ->
     qa_answer e = EmptyString \/ is_hesitation (Some (qa_answer e)) = false).

(** The world of [run_console_interview] when it enters the main loop
    after the gateway gave [q] as first question: the banner is printed, the
    first question is issued and, unless empty, printed. *)
Definition console_start (role : string) (max_questions : Z) (q : string) (w : World) : World :=
  let w0 :=
    add_console
      [Printed (nl +:+ "🚀 Starting multi-agent mock interview for role: " +:+ role);
       Printed ("(Type 'exit' anytime to stop)" +:+ nl)]
      (mkWorld (new_state role max_questions) [] (calls w) (console w)) in
  let w1 :=
    issue true q
      (log_call (interviewer_messages (new_state role max_questions) [START_DIRECTIVE])
         (7 # 10) (add_history [START_DIRECTIVE] w0)) in
  if truthy q then add_console [Printed ("Interviewer: " +:+ q +:+ nl)] w1 else w1.

(** The feedback phase (lines 461-465) from world [w] *)
Definition feedback_phase (llm : list message -> Q -> exn + string) (w : World)
    : outcome (option string) :=
  let msgs := feedback_messages (state w) in
  let w1 :=
    log_call msgs (3 # 10)
      (add_console [Printed (nl +:+ "📝 Generating feedback......" +:+ nl)] w) in
  match llm msgs (3 # 10) with
  | inl e => Raised e w1
  | inr text =>
      Returned (Some (strip text))
        (add_console [Printed ("📣 FEEDBACK:" +:+ nl); Printed (strip text)] w1)
  end.

(** *** Effects of one orchestrator step *)

(** What one orchestrator step can have done to the interview state and
    the history: nothing; only the start directive (first call failed); the
    first question; only the saved answer (a call failed, or the interview
    is finished); the saved answer and a question, counted as a main
    question or not. *)
Inductive step_effect (w w' : World) : Prop :=
| effect_none :
    state w' = state w -> history w' = history w -> step_effect w w'
| effect_start_failed :
    main_questions_asked (state w) = 0 ->
    state w' = state w -> history w' = (history w ++ [START_DIRECTIVE])%list ->
    step_effect w w'
| effect_first_question q :
    main_questions_asked (state w) = 0 -> strip q = q ->
    state w' = asked true q (state w) ->
    history w' = (history w ++ [START_DIRECTIVE; Msg "assistant" q])%list ->
    step_effect w w'
| effect_answer_saved a e :
    last (qa_pairs (state w)) = Some e ->
    state w' = answered a (state w) ->
    history w' = (history w ++ [Msg "user" a])%list ->
    step_effect w w'
| effect_question a e (main : bool) q :
    last (qa_pairs (state w)) = Some e -> strip q = q ->
    (main = true -> main_questions_asked (state w) < max_questions (state w)) ->
    state w' = asked main q (answered a (state w)) ->
    history w' = (history w ++ [Msg "user" a; Msg "assistant" q])%list ->
    step_effect w w'.

(** Runs made of orchestrator steps only (the HTTP transport). *)
Inductive orchestrated : World -> World -> Prop :=
| orchestrated_refl w : orchestrated w w
| orchestrated_step llm user_answer w w' :
    orchestrated w w' ->
    orchestrated w (final_world (orchestrator_step llm user_answer w')).

(** The assistant turns of a history, in order *)
Definition assistant_turns (hist : list message) : list string :=
  map content (filter (λ m, msg_role m = "assistant") hist).

(* ================================================================== *)
(** * Properties *)
(* ================================================================== *)

(** ** Strings *)

Lemma lstrip_all_space (s : string) :
  forall_chars is_space s = true -> lstrip s = EmptyString.
Proof.
  induction s as [|c r IH]; simpl; [reflexivity|].
  intros H. apply andb_true_iff in H as [Hc Hr].
  rewrite Hc. exact (IH Hr).
Qed.

Lemma strip_all_space (s : string) :
  forall_chars is_space s = true -> strip s = EmptyString.
Proof. intros H. unfold strip. rewrite (lstrip_all_space s H). reflexivity. Qed.

Lemma lower_empty (s : string) : lower s = EmptyString -> s = EmptyString.
Proof. destruct s; simpl; [reflexivity | discriminate]. Qed.

(** ** Hesitation classifier *)

Lemma is_hesitation_text (raw : string) :
  is_hesitation (Some raw) = hesitant_text (lower (strip raw)).
Proof. reflexivity. Qed.

Lemma positive_short_not_hesitant (text : string) :
  text ∈ POSITIVE_SHORTS -> hesitant_text text = false.
Proof.
  unfold POSITIVE_SHORTS. rewrite !elem_of_union, !elem_of_singleton.
  intros H. repeat destruct H as [H|H]; subst text; vm_compute; reflexivity.
Qed.

Lemma exit_word_not_hesitant (text : string) :
  text ∈ ["exit"; "quit"; "stop"] -> hesitant_text text = false.
Proof.
  rewrite !elem_of_cons, elem_of_nil.
  intros [->|[->|[->|[]]]]; vm_compute; reflexivity.
Qed.

Lemma classify_Hesitant (raw : string) :
  classify raw = Hesitant <->
  is_hesitation (Some raw) = true /\ lower (strip raw) ∉ POSITIVE_SHORTS.
Proof.
  unfold classify. case_bool_decide as Hp.
  - split; [discriminate|]. intros [_ Hn]. contradiction.
  - destruct (is_hesitation (Some raw)); split; try discriminate; auto.
    intros [? _]. discriminate.
Qed.

Lemma hesitant_not_exit (raw : string) :
  is_hesitation (Some raw) = true -> lower (strip raw) ∉ ["exit"; "quit"; "stop"].
Proof.
  rewrite is_hesitation_text. intros H Hin.
  rewrite (exit_word_not_hesitant _ Hin) in H. discriminate.
Qed.

(** C4. The hesitation classifier is a total, deterministic, pure function
    of the utterance alone: every string has exactly one class; the absent
    input, the empty string and every whitespace-only string are hesitant;
    and the four sample utterances are classified Hesitant, Hesitant,
    PositiveShort and Substantive. *)
Theorem classify_total_deterministic :
  (forall raw : string, exists! c : Classification, classify raw = c) /\
  is_hesitation None = true /\
  (forall raw : string,
      forall_chars is_space raw = true ->
      is_hesitation (Some raw) = true /\ classify raw = Hesitant) /\
  classify EmptyString = Hesitant /\
  classify "um" = Hesitant /\
  classify "yes" = PositiveShort /\
  classify "I built a caching layer for a payments service" = Substantive.
Proof.
  split; [|split; [|split; [|repeat split; vm_compute; reflexivity]]].
  - intros raw. exists (classify raw). split; [reflexivity|]. intros c Hc. exact Hc.
  - reflexivity.
  - intros raw Hws.
    assert (Hh : is_hesitation (Some raw) = true).
    { rewrite is_hesitation_text, (strip_all_space raw Hws). reflexivity. }
    split; [exact Hh|]. apply classify_Hesitant. split; [exact Hh|].
    rewrite (strip_all_space raw Hws). vm_compute. intros H. discriminate H.
Qed.

(** ** Gateway calls *)

Lemma chat_with_groq_run llm messages temperature w :
  chat_with_groq llm messages temperature w =
  match llm messages temperature with
  | inl e => Raised e (log_call messages temperature w)
  | inr text => Returned (strip text) (log_call messages temperature w)
  end.
Proof. reflexivity. Qed.

Lemma timeout_agent_run llm w :
  timeout_agent llm w =
  Returned
    match llm timeout_messages (7 # 10) with
    | inl _ => TIMEOUT_FALLBACK
    | inr text => strip text
    end
    (log_call timeout_messages (7 # 10) w).
Proof.
  unfold timeout_agent, try_except. rewrite chat_with_groq_run.
  destruct (llm timeout_messages (7 # 10)); reflexivity.
Qed.

(** C9. [timeout_agent] never raises: when the gateway call fails it returns
    the fixed fallback sentence, and when the call succeeds it returns the
    gateway's (stripped) text; in both cases the only effect is the one
    logged call. *)
Theorem timeout_agent_fallback llm w :
  (exists s, timeout_agent llm w = Returned s (log_call timeout_messages (7 # 10) w)) /\
  (forall e w', chat_with_groq llm timeout_messages (7 # 10) w = Raised e w' ->
     timeout_agent llm w = Returned TIMEOUT_FALLBACK w') /\
  (forall s w', chat_with_groq llm timeout_messages (7 # 10) w = Returned s w' ->
     timeout_agent llm w = Returned s w') /\
  TIMEOUT_FALLBACK =
    "Are you still there? Take your time — would you like me to repeat the question?".
Proof.
  rewrite timeout_agent_run, chat_with_groq_run.
  destruct (llm timeout_messages (7 # 10)) as [e|text].
  - split; [eexists; reflexivity|]. split; [|split; [|reflexivity]].
    + intros e' w' H. injection H as _ <-. reflexivity.
    + intros s w' H. discriminate H.
  - split; [eexists; reflexivity|]. split; [|split; [|reflexivity]].
    + intros e' w' H. discriminate H.
    + intros s w' H. injection H as <- <-. reflexivity.
Qed.

(** ** Orchestrator: what one step computes *)

Ltac run_step :=
  lazy beta iota zeta delta
    [orchestrator_step mbind M_bind mret M_ret get_state get_history return_step
     history_append interviewer_agent followup_agent chat_with_groq
     set_last_answer last_question incr_main_questions_asked qa_pairs_append raise
     state history calls console role max_questions main_questions_asked qa_pairs
     log_call add_history add_console with_state issue asked answered all_questions
     is_none andb negb final_world START_DIRECTIVE].

Lemma orchestrator_step_idle llm w :
  main_questions_asked (state w) <> 0 ->
  orchestrator_step llm None w = Returned (state w, history w, None, true) w.
Proof.
  intros Hne. apply Z.eqb_neq in Hne.
  unfold orchestrator_step, mbind, M_bind, get_state, return_step, is_none.
  rewrite Hne. reflexivity.
Qed.

(** C10. With [main_questions_asked > 0] and no answer, the step falls
    through to the fail-safe: it returns [(state, history, None, True)],
    leaves the world as it is and calls no gateway. *)
Theorem orchestrator_step_failsafe llm w :
  main_questions_asked (state w) > 0 ->
  orchestrator_step llm None w = Returned (state w, history w, None, true) w /\
  calls (final_world (orchestrator_step llm None w)) = calls w.
Proof.
  intros Hpos.
  rewrite orchestrator_step_idle by lia. split; reflexivity.
Qed.

Lemma orchestrator_step_first llm w :
  main_questions_asked (state w) = 0 ->
  orchestrator_step llm None w =
  let w1 := add_history [START_DIRECTIVE] w in
  let msgs := interviewer_messages (state w1) (history w1) in
  match llm msgs (7 # 10) with
  | inl e => Raised e (log_call msgs (7 # 10) w1)
  | inr text =>
      let w2 := issue true (strip text) (log_call msgs (7 # 10) w1) in
      Returned (state w2, history w2, Some (strip text), false) w2
  end.
Proof.
  destruct w as [[r mx mq qs] h c k]. simpl. intros ->.
  run_step. change (0 =? 0) with true. run_step.
  destruct (llm _ _) as [e|text]; reflexivity.
Qed.

Lemma last_insert_last {A} (l : list A) (e x : A) :
  last l = Some e -> last (<[ (length l - 1)%nat := x ]> l) = Some x.
Proof.
  intros He. rewrite last_lookup, length_insert.
  replace (pred (length l)) with (length l - 1)%nat by lia.
  apply list_lookup_insert_eq.
  destruct l; [discriminate He | simpl; lia].
Qed.

Lemma orchestrator_step_answer llm a w :
  orchestrator_step llm (Some a) w =
  match last (qa_pairs (state w)) with
  | None => Raised IndexError w
  | Some e =>
      let w1 := add_history [Msg "user" a] (with_state (answered a (state w)) w) in
      let fmsgs := followup_messages (qa_question e) a (all_questions (state w1)) in
      let w2 := log_call fmsgs (4 # 10) w1 in
      match llm fmsgs (4 # 10) with
      | inl err => Raised err w2
      | inr reply =>
          let followup := strip (strip reply) in
          if negb (String.eqb followup "NONE") then
            let w3 := issue false followup w2 in
            Returned (state w3, history w3, Some followup, false) w3
          else if main_questions_asked (state w2) >=? max_questions (state w2) then
            Returned (state w2, history w2, None, true) w2
          else
            let imsgs := interviewer_messages (state w2) (history w2) in
            match llm imsgs (7 # 10) with
            | inl err => Raised err (log_call imsgs (7 # 10) w2)
            | inr text =>
                let w3 := issue true (strip text) (log_call imsgs (7 # 10) w2) in
                Returned (state w3, history w3, Some (strip text), false) w3
            end
      end
  end.
Proof.
  destruct w as [[r mx mq qs] h c k]. run_step.
  destruct (last qs) as [e|] eqn:He; [|reflexivity].
  run_step. rewrite (last_insert_last qs e _ He). run_step.
  destruct (llm _ (4 # 10)) as [err|reply]; [reflexivity|].
  destruct (String.eqb _ _); [|reflexivity].
  destruct (mq >=? mx); [reflexivity|].
  destruct (llm _ (7 # 10)) as [err|text]; reflexivity.
Qed.

Lemma followup_agent_run llm last_q last_a previous w :
  followup_agent llm last_q last_a previous w =
  let fmsgs := followup_messages last_q last_a previous in
  match llm fmsgs (4 # 10) with
  | inl err => Raised err (log_call fmsgs (4 # 10) w)
  | inr reply => Returned (strip (strip reply)) (log_call fmsgs (4 # 10) w)
  end.
Proof.
  unfold followup_agent, mbind, M_bind. rewrite chat_with_groq_run.
  cbv zeta. destruct (llm _ _); reflexivity.
Qed.

(** C8. When an answer to a pending question is processed and the follow-up
    agent replies [followup], a follow-up is asked exactly when
    [followup] is not the string NONE, whatever else it is (no comparison
    with earlier questions): the step then returns it with [finished = False],
    appends it to the history and, with an empty answer, to [qa_pairs], and
    leaves [main_questions_asked] alone. With NONE no step result is an
    uncounted question. *)
Theorem followup_unless_NONE llm a w e followup w2 :
  last (qa_pairs (state w)) = Some e ->
  followup_agent llm (qa_question e) a (all_questions (state (answer_saved a w)))
    (answer_saved a w) = Returned followup w2 ->
  (followup <> "NONE" ->
     let w3 := issue false followup w2 in
     orchestrator_step llm (Some a) w
       = Returned (state w3, history w3, Some followup, false) w3 /\
     history w3 = (history w ++ [Msg "user" a; Msg "assistant" followup])%list /\
     qa_pairs (state w3)
       = (qa_pairs (answered a (state w)) ++ [QA followup EmptyString])%list /\
     main_questions_asked (state w3) = main_questions_asked (state w)) /\
  (followup <> "NONE" <->
     exists st' hist' msg w',
       orchestrator_step llm (Some a) w = Returned (st', hist', msg, false) w' /\
       main_questions_asked st' = main_questions_asked (state w)).
Proof.
  intros He Hf. rewrite followup_agent_run in Hf. cbv zeta in Hf.
  pose proof (orchestrator_step_answer llm a w) as Hstep.
  rewrite He in Hstep. cbv zeta in Hstep. fold (answer_saved a w) in Hstep.
  destruct (llm _ (4 # 10)) as [err|reply]; [discriminate Hf|].
  injection Hf as <- <-.
  assert (Hmq : main_questions_asked (answered a (state w)) = main_questions_asked (state w)).
  { unfold answered. rewrite He. reflexivity. }
  destruct (String.eqb_spec (strip (strip reply)) "NONE") as [Heq|Hne]; simpl negb in Hstep;
    cbv iota in Hstep.
  - split; [intros Hn; contradiction|]. split; [intros Hn; contradiction|].
    intros (st' & hist' & msg & w' & Hr & Hm). rewrite Hr in Hstep.
    destruct (_ >=? _); [discriminate Hstep|].
    destruct (llm _ (7 # 10)); [discriminate Hstep|].
    injection Hstep as -> _ _ _. simpl in Hm. rewrite Hmq in Hm. lia.
  - assert (Hgoal :
      let w3 := issue false (strip (strip reply))
                  (log_call (followup_messages (qa_question e) a
                     (all_questions (state (answer_saved a w)))) (4 # 10) (answer_saved a w)) in
      orchestrator_step llm (Some a) w
        = Returned (state w3, history w3, Some (strip (strip reply)), false) w3 /\
      history w3 = (history w ++ [Msg "user" a; Msg "assistant" (strip (strip reply))])%list /\
      qa_pairs (state w3)
        = (qa_pairs (answered a (state w)) ++ [QA (strip (strip reply)) EmptyString])%list /\
      main_questions_asked (state w3) = main_questions_asked (state w)).
    { cbv zeta. split; [exact Hstep|]. split; [|split].
      - simpl. rewrite <- app_assoc. reflexivity.
      - reflexivity.
      - simpl. exact Hmq. }
    split; [intros _; exact Hgoal|]. split; [|intros _; exact Hne].
    intros _. cbv zeta in Hgoal. destruct Hgoal as (Hr & _ & _ & Hm).
    eexists _, _, _, _. split; [exact Hr|exact Hm].
Qed.

(** ** Failure of a generation call *)

(** C3 (as stated, refuted). In a session with a pending question, a step
    whose follow-up call fails leaves [history] and [qa_pairs] changed: the
    answer is already stored in both. *)
Lemma generation_failure_partial_mutation_counterexample :
  exists w',
    orchestrator_step failing (Some "I am Ada") pending_world
      = Raised (GenerationFailure "timeout") w' /\
    history w' = (history pending_world ++ [Msg "user" "I am Ada"])%list /\
    history w' <> history pending_world /\
    qa_pairs (state pending_world) = [QA INTRODUCTION_REQUEST EmptyString] /\
    qa_pairs (state w') = [QA INTRODUCTION_REQUEST "I am Ada"] /\
    qa_pairs (state w') <> qa_pairs (state pending_world).
Proof.
  eexists. split; [vm_compute; reflexivity|].
  vm_compute. repeat split; intros H; discriminate H.
Qed.

(** C3 (amended). When a generation call fails while an answer to a pending
    question is processed, the step raises with [main_questions_asked]
    unchanged and no question added, but the answer is already written into
    the last entry of [qa_pairs] and appended to the history as a user
    turn; through the [/answer] endpoint the registry keeps the session in
    that state, still unfinished. When the call for the first question
    fails, the state is unchanged and the history holds the start
    directive. *)
Theorem generation_failure_effect llm a w e err w' :
  last (qa_pairs (state w)) = Some e ->
  orchestrator_step llm (Some a) w = Raised err w' ->
  state w' = answered a (state w) /\
  history w' = (history w ++ [Msg "user" a])%list /\
  main_questions_asked (state w') = main_questions_asked (state w) /\
  length (qa_pairs (state w')) = length (qa_pairs (state w)) /\
  last (qa_pairs (state w')) = Some (QA (qa_question e) a) /\
  (forall sid app sd,
      SESSIONS app !! sid = Some sd -> sd_finished sd = false ->
      sd_state sd = state w -> sd_history sd = history w -> app_calls app = calls w ->
      console w = [] ->
      exists calls',
        answer llm (mkAnswerRequest sid a) app
        = Failed err
            (mkApp (<[ sid := mkSession (answered a (state w))
                                (history w ++ [Msg "user" a])%list false ]> (SESSIONS app))
                   calls')) /\
  (forall w0 err0 w0',
      main_questions_asked (state w0) = 0 ->
      orchestrator_step llm None w0 = Raised err0 w0' ->
      state w0' = state w0 /\ history w0' = (history w0 ++ [START_DIRECTIVE])%list).
Proof.
  intros He Hstep.
  assert (Hw' : state w' = answered a (state w) /\
                history w' = (history w ++ [Msg "user" a])%list).
  { rewrite orchestrator_step_answer, He in Hstep. cbv zeta in Hstep.
    destruct (llm _ (4 # 10)) as [err1|reply].
    - injection Hstep as _ <-. split; reflexivity.
    - destruct (negb _); [discriminate Hstep|].
      destruct (_ >=? _); [discriminate Hstep|].
      destruct (llm _ (7 # 10)); [|discriminate Hstep].
      injection Hstep as _ <-. split; reflexivity. }
  destruct Hw' as [Hst Hh].
  assert (Hans : answered a (state w) =
                 mkState (role (state w)) (max_questions (state w))
                   (main_questions_asked (state w))
                   (<[ (length (qa_pairs (state w)) - 1)%nat := QA (qa_question e) a ]>
                      (qa_pairs (state w)))).
  { unfold answered. rewrite He. reflexivity. }
  split; [exact Hst|]. split; [exact Hh|].
  rewrite Hst, Hans. simpl.
  split; [reflexivity|]. split; [apply length_insert|].
  split; [apply (last_insert_last _ e), He|]. split.
  - intros sid app sd Hsd Hfin Hs Hhist Hc Hk.
    unfold answer, get_session. simpl. rewrite Hsd, Hfin.
    replace (mkWorld (sd_state sd) (sd_history sd) (app_calls app) []) with w
      by (destruct w; simpl in *; congruence).
    rewrite Hstep. exists (calls w'). rewrite Hst, Hh, Hans. reflexivity.
  - intros w0 err0 w0' H0 Hs0. rewrite (orchestrator_step_first llm w0 H0) in Hs0.
    cbv zeta in Hs0. destruct (llm _ _); [|discriminate Hs0].
    injection Hs0 as _ <-. split; reflexivity.
Qed.

Lemma generation_failure_effect_witness :
  state
    (final_world (orchestrator_step failing (Some "I am Ada") pending_world))
  = answered "I am Ada" (state pending_world).
Proof.
  exact (proj1 (generation_failure_effect failing "I am Ada" pending_world
                  (QA INTRODUCTION_REQUEST EmptyString) (GenerationFailure "timeout")
                  (final_world (orchestrator_step failing (Some "I am Ada") pending_world))
                  eq_refl eq_refl)).
Defined.

(** ** The HTTP endpoints *)

(** C2. On a session whose stored [finished] flag is true, [/answer]
    replies [(None, True)] without error and changes nothing: the registry
    (hence the session's [qa_pairs], [main_questions_asked] and history) is
    the same and no gateway call is made. *)
Theorem answer_finished_noop llm req app sd :
  SESSIONS app !! session_id req = Some sd ->
  sd_finished sd = true ->
  answer llm req app = Replied (mkAnswerResponse None true) app /\
  (forall app', answer llm req app = Replied (mkAnswerResponse None true) app' ->
     SESSIONS app' !! session_id req = Some sd /\ app_calls app' = app_calls app).
Proof.
  intros Hsd Hfin.
  assert (H : answer llm req app = Replied (mkAnswerResponse None true) app).
  { unfold answer, get_session. rewrite Hsd, Hfin. reflexivity. }
  split; [exact H|].
  intros app' H'. rewrite H in H'. injection H' as <-. split; [exact Hsd|reflexivity].
Qed.

Lemma answer_finished_noop_witness :
  answer failing (mkAnswerRequest "s1" "more") finished_app
  = Replied (mkAnswerResponse None true) finished_app.
Proof.
  exact (proj1 (answer_finished_noop failing (mkAnswerRequest "s1" "more") finished_app
                  (mkSession (mkState "Software Engineer" 1 1
                                [QA INTRODUCTION_REQUEST "I am Ada"])
                       [START_DIRECTIVE; Msg "assistant" INTRODUCTION_REQUEST;
                        Msg "user" "I am Ada"]
                       true)
                  eq_refl eq_refl)).
Defined.

Lemma string_app_assoc (s1 s2 s3 : string) :
  s1 +:+ (s2 +:+ s3) = (s1 +:+ s2) +:+ s3.
Proof.
  induction s1 as [|c r IH]; [reflexivity|].
  change (String c (r +:+ (s2 +:+ s3)) = String c ((r +:+ s2) +:+ s3)).
  rewrite IH. reflexivity.
Qed.

Lemma interviewer_prompt_fixes_first_question (role : string) :
  exists pre post : string,
    INTERVIEWER_SYSTEM_PROMPT role
    = pre +:+ "1. FIRST QUESTION — ALWAYS:" +:+ nl +:+ "   " +:+ dq +:+
      INTRODUCTION_REQUEST +:+ dq +:+ post.
Proof.
  unfold INTERVIEWER_SYSTEM_PROMPT, INTRODUCTION_REQUEST.
  eexists ("
You are an Interviewer Agent for the role: " +:+ role +:+ ".

INTERVIEW FLOW (STRICT):

"), _.
  rewrite <- !string_app_assoc. reflexivity.
Qed.

(** C7 (as stated, refuted). With a gateway that answers something else,
    the first question returned by [/start] is that answer, not the
    introduction request. *)
Lemma first_question_not_fixed_counterexample :
  exists app',
    start_interview (scripted (inr "Which database do you prefer?") (inr "NONE")) "s1"
      (mkStartRequest "Backend Engineer" 3) (mkApp ∅ [])
    = Replied (mkStartResponse "s1" "Which database do you prefer?") app' /\
    "Which database do you prefer?" <> INTRODUCTION_REQUEST.
Proof.
  eexists. split; [vm_compute; reflexivity|]. intros H. discriminate H.
Qed.

(** C7 (amended). For every role, the first question (of [/start] and of
    the first [orchestrator_step] with no answer) is the stripped reply of
    the generation gateway to the interviewer system prompt followed by the
    start directive; that prompt, for every role, instructs that the first
    question is always the introduction request, but the orchestrator
    neither hard-codes nor checks it. When the call fails, [/start] fails
    and stores no session. *)
Theorem first_question_is_gateway_reply llm sid req app :
  let st := new_state (req_role req) (req_max_questions req) in
  let msgs := [Msg "system" (INTERVIEWER_SYSTEM_PROMPT (req_role req)); START_DIRECTIVE] in
  let calls' := (app_calls app ++ [Call msgs (7 # 10)])%list in
  (exists pre post : string,
     INTERVIEWER_SYSTEM_PROMPT (req_role req)
     = pre +:+ "1. FIRST QUESTION — ALWAYS:" +:+ nl +:+ "   " +:+ dq +:+
       INTRODUCTION_REQUEST +:+ dq +:+ post) /\
  orchestrator_step llm None (mkWorld st [] (app_calls app) [])
  = match llm msgs (7 # 10) with
    | inl e => Raised e (mkWorld st [START_DIRECTIVE] calls' [])
    | inr text =>
        let q := strip text in
        let st' := mkState (req_role req) (req_max_questions req) 1 [QA q EmptyString] in
        let hist' := [START_DIRECTIVE; Msg "assistant" q] in
        Returned (st', hist', Some q, false) (mkWorld st' hist' calls' [])
    end /\
  start_interview llm sid req app
  = match llm msgs (7 # 10) with
    | inl e => Failed e (mkApp (SESSIONS app) calls')
    | inr text =>
        let q := strip text in
        Replied (mkStartResponse sid q)
          (mkApp (<[ sid := mkSession
                             (mkState (req_role req) (req_max_questions req) 1
                                [QA q EmptyString])
                             [START_DIRECTIVE; Msg "assistant" q] false ]> (SESSIONS app))
                 calls')
    end.
Proof.
  cbv zeta. split; [apply interviewer_prompt_fixes_first_question|].
  assert (Hstep := orchestrator_step_first llm
            (mkWorld (new_state (req_role req) (req_max_questions req)) [] (app_calls app) [])
            eq_refl).
  cbv zeta in Hstep.
  change (interviewer_messages _ _)
    with [Msg "system" (INTERVIEWER_SYSTEM_PROMPT (req_role req)); START_DIRECTIVE] in Hstep.
  unfold start_interview. rewrite Hstep.
  destruct (llm _ _) as [e|text]; split; reflexivity.
Qed.

(** ** The answer loop of the console interview *)

Lemma answer_loop_hesitant llm cq n u rest w :
  classify u = Hesitant ->
  answer_loop llm cq n (u :: rest) w =
  if n + 1 =? 1 then
    answer_loop llm cq (n + 1) rest
      (add_console [Read "You: " u; said (reengage_msg_of llm)]
         (log_call timeout_messages (7 # 10) w))
  else if n + 1 =? 2 then
    answer_loop llm cq (n + 1) rest
      (add_history [Msg "assistant" (repeat_msg_of cq)]
         (add_console [Read "You: " u; said (repeat_msg_of cq)] w))
  else
    Returned (Captured SKIP_MARKER)
      (add_console [Read "You: " u; said SKIP_MESSAGE] w).
Proof.
  intros Hc. apply classify_Hesitant in Hc as [Hh Hpos].
  pose proof (hesitant_not_exit u Hh) as Hexit.
  cbn [answer_loop]. unfold mbind, M_bind, input.
  rewrite (bool_decide_eq_false_2 _ Hexit), (bool_decide_eq_false_2 _ Hpos), Hh.
  destruct (n + 1 =? 1).
  - rewrite timeout_agent_run. unfold interviewer_says, print, log_call, add_console, said.
    cbn [state history calls console]. rewrite <- app_assoc. reflexivity.
  - destruct (n + 1 =? 2).
    + unfold interviewer_says, print, history_append, add_history, add_console, said,
        repeat_msg_of.
      cbn [state history calls console]. rewrite <- app_assoc. reflexivity.
    + unfold interviewer_says, print, add_console, said, mret, M_ret.
      cbn [state history calls console]. rewrite <- app_assoc. reflexivity.
Qed.

(** C5 (as stated, refuted). When the text of the pending question is
    empty, the second stage does not restate that text after the supportive
    phrase: it says "Can you elaborate?" instead. *)
Lemma repeat_of_empty_question_counterexample :
  current_question_of (state empty_question_world) = Some EmptyString /\
  classify EmptyString = Hesitant /\
  exists w',
    answer_loop failing (current_question_of (state empty_question_world)) 0
      [EmptyString; EmptyString; EmptyString] empty_question_world
    = Returned (Captured SKIP_MARKER) w' /\
    history w'
    = (history empty_question_world
         ++ [Msg "assistant" (supportive_repeat_text "Can you elaborate?")])%list /\
    supportive_repeat_text "Can you elaborate?" <> supportive_repeat_text EmptyString.
Proof.
  split; [reflexivity|]. split; [vm_compute; reflexivity|].
  eexists. split; [vm_compute; reflexivity|].
  split; [vm_compute; reflexivity|]. vm_compute. intros H. discriminate H.
Qed.

(** C5 (amended). For every pending question, three utterances classified
    Hesitant go through exactly three stages, in this order: after the
    first, the re-engagement message of [timeout_agent] is printed and the
    loop waits; after the second, the supportive repeat is printed and
    appended to the history as an assistant turn, and the loop waits; after
    the third, the loop ends with the skip marker as the answer. The
    repeat is the fixed supportive phrase, a line feed and the exact text
    of the question when that text is not empty; for an empty (or missing)
    question text it is the phrase followed by "Can you elaborate?". *)
Theorem hesitation_escalation llm cq u1 u2 u3 rest w :
  classify u1 = Hesitant -> classify u2 = Hesitant -> classify u3 = Hesitant ->
  let call1 := Call timeout_messages (7 # 10) in
  let turn2 := Msg "assistant" (repeat_msg_of cq) in
  let stage1 := [Read "You: " u1; said (reengage_msg_of llm)] in
  let stage2 := [Read "You: " u2; said (repeat_msg_of cq)] in
  let stage3 := [Read "You: " u3; said SKIP_MESSAGE] in
  answer_loop llm cq 0 [u1] w
  = Returned (AwaitingInput 1)
      (mkWorld (state w) (history w) (calls w ++ [call1]) (console w ++ stage1))%list /\
  answer_loop llm cq 0 [u1; u2] w
  = Returned (AwaitingInput 2)
      (mkWorld (state w) (history w ++ [turn2]) (calls w ++ [call1])
         (console w ++ stage1 ++ stage2))%list /\
  answer_loop llm cq 0 (u1 :: u2 :: u3 :: rest) w
  = Returned (Captured SKIP_MARKER)
      (mkWorld (state w) (history w ++ [turn2]) (calls w ++ [call1])
         (console w ++ stage1 ++ stage2 ++ stage3))%list /\
  SKIP_MARKER = "No response / skipped" /\
  (forall q, cq = Some q -> q <> EmptyString ->
     repeat_msg_of cq
     = "No problem, let me repeat the question so you can answer comfortably:" +:+ nl +:+ q) /\
  (cq = None \/ cq = Some EmptyString ->
     repeat_msg_of cq
     = "No problem, let me repeat the question so you can answer comfortably:" +:+ nl +:+
       "Can you elaborate?").
Proof.
  intros H1 H2 H3. cbv zeta.
  assert (Hloop : forall tail,
    answer_loop llm cq 0 (u1 :: u2 :: tail) w
    = answer_loop llm cq 2 tail
        (mkWorld (state w) (history w ++ [Msg "assistant" (repeat_msg_of cq)])
           (calls w ++ [Call timeout_messages (7 # 10)])
           (console w ++ [Read "You: " u1; said (reengage_msg_of llm)]
              ++ [Read "You: " u2; said (repeat_msg_of cq)]))%list).
  { intros tail. rewrite (answer_loop_hesitant llm cq 0 u1 _ w H1).
    change (0 + 1 =? 1) with true. cbv iota.
    rewrite (answer_loop_hesitant llm cq (0 + 1) u2 _ _ H2).
    change (0 + 1 + 1 =? 1) with false. change (0 + 1 + 1 =? 2) with true. cbv iota.
    unfold add_history, add_console, log_call. cbn [state history calls console].
    rewrite <- app_assoc. reflexivity. }
  split; [|split; [|split; [|split; [reflexivity|split]]]].
  - rewrite (answer_loop_hesitant llm cq 0 u1 _ w H1). reflexivity.
  - rewrite Hloop. reflexivity.
  - rewrite Hloop, (answer_loop_hesitant llm cq 2 u3 _ _ H3).
    change (2 + 1 =? 1) with false. change (2 + 1 =? 2) with false. cbv iota.
    unfold add_console. cbn [state history calls console].
    rewrite <- !app_assoc. reflexivity.
  - intros q -> Hq. unfold repeat_msg_of, or_default, supportive_repeat_text.
    destruct q; [contradiction|reflexivity].
  - intros [->| ->]; reflexivity.
Qed.

Lemma hesitation_escalation_witness :
  answer_loop failing (Some INTRODUCTION_REQUEST) 0 ["um"; "..."; EmptyString; "later"]
    pending_world
  = Returned (Captured SKIP_MARKER)
      (mkWorld (state pending_world)
         (history pending_world
            ++ [Msg "assistant" (repeat_msg_of (Some INTRODUCTION_REQUEST))])
         (calls pending_world ++ [Call timeout_messages (7 # 10)])
         (console pending_world
            ++ [Read "You: " "um"; said (reengage_msg_of failing)]
            ++ [Read "You: " "..."; said (repeat_msg_of (Some INTRODUCTION_REQUEST))]
            ++ [Read "You: " EmptyString; said SKIP_MESSAGE]))%list.
Proof.
  refine (proj1 (proj2 (proj2
    (hesitation_escalation failing (Some INTRODUCTION_REQUEST) "um" "..." EmptyString
       ["later"] pending_world _ _ _)))); vm_compute; reflexivity.
Defined.

Lemma answer_loop_state llm cq inputs : forall n w,
  state (final_world (answer_loop llm cq n inputs w)) = state w.
Proof.
  induction inputs as [|u rest IH]; intros n w; [reflexivity|].
  cbn [answer_loop]. unfold mbind, M_bind, input.
  case_bool_decide; [reflexivity|].
  case_bool_decide; [reflexivity|].
  destruct (is_hesitation (Some u)); [|reflexivity].
  destruct (n + 1 =? 1).
  - rewrite timeout_agent_run. unfold interviewer_says, print. rewrite IH. reflexivity.
  - destruct (n + 1 =? 2).
    + unfold interviewer_says, print, history_append. rewrite IH. reflexivity.
    + reflexivity.
Qed.

(** *** [strip] is idempotent *)

Lemma lstrip_starts_clean (s : string) : starts_clean (lstrip s).
Proof.
  induction s as [|c r IH]; simpl; [exact I|].
  destruct (is_space c) eqn:Hc; [exact IH | simpl; exact Hc].
Qed.

Lemma lstrip_clean (s : string) : starts_clean s -> lstrip s = s.
Proof. destruct s as [|c r]; simpl; [reflexivity|]. intros ->. reflexivity. Qed.

Lemma rstrip_starts_clean (s : string) : starts_clean s -> starts_clean (rstrip s).
Proof.
  destruct s as [|c r]; simpl; [intros _; exact I|].
  intros Hc. destruct (rstrip r); simpl; [rewrite Hc; simpl|]; exact Hc.
Qed.

Lemma rstrip_idem (s : string) : rstrip (rstrip s) = rstrip s.
Proof.
  induction s as [|c r IH]; [reflexivity|].
  cbn [rstrip]. destruct (rstrip r) as [|c' r'] eqn:Hr.
  - destruct (is_space c) eqn:Hc; [reflexivity|]. cbn [rstrip]. rewrite Hc. reflexivity.
  - change (rstrip (String c (String c' r'))) with
      (match rstrip (String c' r') with
       | EmptyString => if is_space c then EmptyString else String c EmptyString
       | r'' => String c r''
       end).
    rewrite IH. reflexivity.
Qed.

Lemma strip_idem (s : string) : strip (strip s) = strip s.
Proof.
  unfold strip.
  rewrite (lstrip_clean (rstrip (lstrip s))).
  - apply rstrip_idem.
  - apply rstrip_starts_clean, lstrip_starts_clean.
Qed.

Lemma is_hesitation_strip (u : string) :
  is_hesitation (Some (strip u)) = is_hesitation (Some u).
Proof. rewrite !is_hesitation_text, strip_idem. reflexivity. Qed.

(** Whatever is typed, the answer loop never captures a hesitant text; in
    particular it never captures the empty string. *)
Lemma answer_loop_captured llm cq inputs : forall n w a w',
  answer_loop llm cq n inputs w = Returned (Captured a) w' ->
  is_hesitation (Some a) = false /\ a <> EmptyString.
Proof.
  assert (Hne : forall a, is_hesitation (Some a) = false -> a <> EmptyString).
  { intros a Ha ->. discriminate Ha. }
  induction inputs as [|u rest IH]; intros n w a w'; [discriminate|].
  cbn [answer_loop]. unfold mbind, M_bind, input.
  case_bool_decide as Hexit; [discriminate|].
  case_bool_decide as Hpos.
  - intros H. injection H as <- _.
    assert (Ha : is_hesitation (Some (strip u)) = false).
    { rewrite is_hesitation_strip, is_hesitation_text.
      apply positive_short_not_hesitant, Hpos. }
    split; [exact Ha | apply Hne, Ha].
  - destruct (is_hesitation (Some u)) eqn:Hh.
    + destruct (n + 1 =? 1).
      * rewrite timeout_agent_run. unfold interviewer_says, print. apply IH.
      * destruct (n + 1 =? 2).
        -- unfold interviewer_says, print, history_append. apply IH.
        -- intros H. injection H as <- _. split; [reflexivity|discriminate].
    + intros H. injection H as <- _.
      assert (Ha : is_hesitation (Some (strip u)) = false)
        by (rewrite is_hesitation_strip; exact Hh).
      split; [exact Ha | apply Hne, Ha].
Qed.

Lemma interviewer_agent_run llm st hist w :
  interviewer_agent llm st hist w =
  let imsgs := interviewer_messages st hist in
  match llm imsgs (7 # 10) with
  | inl err => Raised err (log_call imsgs (7 # 10) w)
  | inr text => Returned (strip text) (log_call imsgs (7 # 10) w)
  end.
Proof.
  unfold interviewer_agent, mbind, M_bind. rewrite chat_with_groq_run.
  cbv zeta. destruct (llm _ _); reflexivity.
Qed.

(** ** The empty answer *)

(** C6 (as stated, refuted). Through [/answer], the empty string is taken
    as the answer to the pending question: it is appended to the history as
    the user turn, no re-engagement call is made, and with a follow-up reply
    NONE the next main question is issued and [main_questions_asked] goes
    from 1 to 2. (In the console, a third empty utterance in a row ends the
    answer loop with the skip marker, which the orchestrator then processes
    as the answer: there too the counter goes from 1 to 2.) *)
Lemma empty_answer_advances_counterexample :
  exists sd app' sd',
    SESSIONS pending_app !! "s1" = Some sd /\
    sd_finished sd = false /\
    main_questions_asked (sd_state sd) = 1 /\
    qa_pairs (sd_state sd) = [QA INTRODUCTION_REQUEST EmptyString] /\
    answer (scripted (inr "What is an index?") (inr "NONE"))
      (mkAnswerRequest "s1" EmptyString) pending_app
    = Replied (mkAnswerResponse (Some "What is an index?") false) app' /\
    SESSIONS app' !! "s1" = Some sd' /\
    main_questions_asked (sd_state sd') = 2 /\
    sd_history sd'
    = (sd_history sd ++ [Msg "user" EmptyString; Msg "assistant" "What is an index?"])%list /\
    Forall (fun c => call_messages c <> timeout_messages) (app_calls app') /\
    state
      (final_world
         (console_round (scripted (inr "What is an index?") (inr "NONE"))
            [EmptyString; EmptyString; EmptyString] pending_world))
    = mkState "Software Engineer" 5 2
        [QA INTRODUCTION_REQUEST SKIP_MARKER; QA "What is an index?" EmptyString].
Proof.
  eexists _, _, _.
  split; [vm_compute; reflexivity|].
  split; [reflexivity|]. split; [reflexivity|]. split; [reflexivity|].
  split; [vm_compute; reflexivity|].
  split; [vm_compute; reflexivity|].
  split; [reflexivity|]. split; [reflexivity|].
  split; [|vm_compute; reflexivity].
  repeat constructor; vm_compute; intros H; discriminate H.
Qed.

(** C6 (amended). The hesitation escalation belongs to the console answer
    loop only. There an empty utterance starts (or continues) the
    escalation: as the first utterance for a question it yields the
    re-engagement message, the loop leaves the interview state (hence
    [main_questions_asked]) alone, and the answer it finally captures (the
    skip marker after a third hesitant utterance) is never the empty
    string. The [/answer] endpoint has no such path: for an
    unfinished session with a pending question it hands the empty string to
    [orchestrator_step] like any answer, so that the registry afterwards
    holds a history extended by the empty user turn, and
    [main_questions_asked] is advanced by one exactly when the follow-up
    reply is NONE, the budget is not used up and the next question is
    generated (otherwise it is unchanged). *)
Theorem empty_answer_handling llm sid app sd e :
  SESSIONS app !! sid = Some sd ->
  sd_finished sd = false ->
  last (qa_pairs (sd_state sd)) = Some e ->
  let w := mkWorld (sd_state sd) (sd_history sd) (app_calls app) [] in
  let w1 := answer_saved EmptyString w in
  let app' := match answer llm (mkAnswerRequest sid EmptyString) app with
              | Replied _ app' => app'
              | Failed _ app' => app'
              end in
  (forall cq rest w0,
      answer_loop llm cq 0 (EmptyString :: rest) w0
      = answer_loop llm cq 1 rest
          (add_console [Read "You: " EmptyString; said (reengage_msg_of llm)]
             (log_call timeout_messages (7 # 10) w0))) /\
  (forall cq n inputs w0,
      state (final_world (answer_loop llm cq n inputs w0)) = state w0) /\
  (forall cq n inputs w0 a w0',
      answer_loop llm cq n inputs w0 = Returned (Captured a) w0' -> a <> EmptyString) /\
  exists sd' tail,
    SESSIONS app' !! sid = Some sd' /\
    sd_history sd' = (sd_history sd ++ [Msg "user" EmptyString] ++ tail)%list /\
    (main_questions_asked (sd_state sd') = main_questions_asked (sd_state sd) \/
     main_questions_asked (sd_state sd') = main_questions_asked (sd_state sd) + 1) /\
    (main_questions_asked (sd_state sd') = main_questions_asked (sd_state sd) + 1 <->
     exists w2 q w3,
       followup_agent llm (qa_question e) EmptyString (all_questions (state w1)) w1
         = Returned "NONE" w2 /\
       main_questions_asked (sd_state sd) < max_questions (sd_state sd) /\
       interviewer_agent llm (state w2) (history w2) w2 = Returned q w3).
Proof.
  intros Hsd Hfin He. cbv zeta.
  split; [|split; [|split]].
  - intros cq rest w0.
    rewrite (answer_loop_hesitant llm cq 0 EmptyString rest w0) by (vm_compute; reflexivity).
    reflexivity.
  - intros cq n inputs w0. apply answer_loop_state.
  - intros cq n inputs w0 a w0' H. exact (proj2 (answer_loop_captured _ _ _ _ _ _ _ H)).
  - unfold answer, get_session. simpl session_id. simpl req_answer. rewrite Hsd, Hfin.
    rewrite orchestrator_step_answer. simpl state at 1. rewrite He. cbv zeta.
    fold (answer_saved EmptyString
            (mkWorld (sd_state sd) (sd_history sd) (app_calls app) [])).
    set (w1 := answer_saved EmptyString _).
    rewrite followup_agent_run. cbv zeta.
    assert (Hmq : main_questions_asked (answered EmptyString (sd_state sd))
                  = main_questions_asked (sd_state sd)).
    { unfold answered. rewrite He. reflexivity. }
    assert (Hmx : max_questions (answered EmptyString (sd_state sd))
                  = max_questions (sd_state sd)).
    { unfold answered. rewrite He. reflexivity. }
    assert (Hs1 : forall m t, state (log_call m t w1) = answered EmptyString (sd_state sd))
      by reflexivity.
    assert (Hh1 : forall m t,
               history (log_call m t w1) = (sd_history sd ++ [Msg "user" EmptyString])%list)
      by reflexivity.
    assert (Hs0 : state w1 = answered EmptyString (sd_state sd)) by reflexivity.
    assert (Hh0 : history w1 = (sd_history sd ++ [Msg "user" EmptyString])%list)
      by reflexivity.
    destruct (llm _ (4 # 10)) as [err|reply].
    + eexists _, []. cbn [SESSIONS]. rewrite lookup_insert_eq. split; [reflexivity|].
      cbn [sd_state sd_history]. rewrite ?Hs1, ?Hh1, ?Hs0, ?Hh0, ?Hmq.
      split; [reflexivity|]. split; [left; reflexivity|].
      split; [lia|]. intros (w2 & q & w3 & H & _). discriminate H.
    + destruct (String.eqb_spec (strip (strip reply)) "NONE") as [Heq|Hne]; simpl negb; cbv iota.
      * rewrite Heq, !Hs1, Hmq, Hmx.
        destruct (Z.geb_spec (main_questions_asked (sd_state sd)) (max_questions (sd_state sd)))
          as [Hge|Hlt].
        -- eexists _, []. cbn [SESSIONS]. rewrite lookup_insert_eq. split; [reflexivity|].
           cbn [sd_state sd_history]. rewrite ?Hs1, ?Hh1, ?Hs0, ?Hh0, ?Hmq.
           split; [reflexivity|]. split; [left; reflexivity|].
           split; [lia|]. intros (w2 & q & w3 & _ & Hlt & _). lia.
        -- rewrite ?Hh1. destruct (llm _ (7 # 10)) as [err|text] eqn:Hllm.
           ++ eexists _, []. cbn [SESSIONS]. rewrite lookup_insert_eq. split; [reflexivity|].
              cbn [sd_state sd_history log_call state history]. rewrite ?Hs1, ?Hh1, ?Hs0, ?Hh0, ?Hmq.
              split; [reflexivity|]. split; [left; reflexivity|].
              split; [lia|]. intros (w2 & q & w3 & H2 & _ & H3).
              injection H2 as <-. rewrite interviewer_agent_run in H3. cbv zeta in H3.
              rewrite ?Hs1, ?Hh1, Hllm in H3. discriminate H3.
           ++ eexists _, [_]. cbn [SESSIONS]. rewrite lookup_insert_eq. split; [reflexivity|].
              cbn [sd_state sd_history log_call state history issue with_state add_history
                   asked main_questions_asked].
              rewrite ?Hs1, ?Hh1, ?Hs0, ?Hh0, ?Hmq.
              split; [rewrite <- app_assoc; reflexivity|]. split; [right; reflexivity|].
              split; [intros _|reflexivity].
              eexists _, _, _. split; [reflexivity|]. split; [exact Hlt|].
              rewrite interviewer_agent_run. cbv zeta. rewrite ?Hs1, ?Hh1, Hllm.
              reflexivity.
      * eexists _, [_]. cbn [SESSIONS]. rewrite lookup_insert_eq. split; [reflexivity|].
        cbn [sd_state sd_history state history issue with_state add_history
             asked main_questions_asked].
        rewrite ?Hs1, ?Hh1, ?Hs0, ?Hh0, ?Hmq.
        split; [rewrite <- app_assoc; reflexivity|]. split; [left; reflexivity|].
        split; [lia|]. intros (w2 & q & w3 & H2 & _). injection H2 as H2 _.
        contradiction.
Qed.

Lemma empty_answer_handling_witness :
  exists sd' tail,
    SESSIONS
      match answer (scripted (inr "What is an index?") (inr "NONE"))
              (mkAnswerRequest "s1" EmptyString) pending_app with
      | Replied _ app' => app'
      | Failed _ app' => app'
      end !! "s1" = Some sd' /\
    sd_history sd'
    = ([START_DIRECTIVE; Msg "assistant" INTRODUCTION_REQUEST]
         ++ [Msg "user" EmptyString] ++ tail)%list.
Proof.
  destruct (empty_answer_handling (scripted (inr "What is an index?") (inr "NONE")) "s1"
              pending_app
              (mkSession (mkState "Software Engineer" 5 1 [QA INTRODUCTION_REQUEST EmptyString])
                 [START_DIRECTIVE; Msg "assistant" INTRODUCTION_REQUEST] false)
              (QA INTRODUCTION_REQUEST EmptyString))
    as (_ & _ & _ & sd' & tail & H1 & H2 & _).
  - vm_compute; reflexivity.
  - reflexivity.
  - reflexivity.
  - exists sd', tail. split; [exact H1 | exact H2].
Defined.

(** ** The counter of main questions *)

Lemma last_snoc_qa (l : list qa) (x : qa) : last (l ++ [x]) = Some x.
Proof. apply last_snoc. Qed.

Lemma orchestrator_step_counter llm user_answer w :
  let w' := final_world (orchestrator_step llm user_answer w) in
  max_questions (state w') = max_questions (state w) /\
  (main_questions_asked (state w') = main_questions_asked (state w) \/
   main_questions_asked (state w') = main_questions_asked (state w) + 1 /\
   (main_questions_asked (state w) = 0 \/
    main_questions_asked (state w) < max_questions (state w)) /\
   exists q, issued_main_question llm user_answer w q).
Proof.
  unfold issued_main_question. cbv zeta.
  destruct user_answer as [a|].
  - rewrite orchestrator_step_answer.
    destruct (last (qa_pairs (state w))) as [e|] eqn:He; [|split; [reflexivity|left; reflexivity]].
    cbv zeta. fold (answer_saved a w).
    assert (Hmq : main_questions_asked (answered a (state w)) = main_questions_asked (state w))
      by (unfold answered; rewrite He; reflexivity).
    assert (Hmx : max_questions (answered a (state w)) = max_questions (state w))
      by (unfold answered; rewrite He; reflexivity).
    destruct (llm _ (4 # 10)) as [err|reply] eqn:H4.
    { split; [exact Hmx | left; exact Hmq]. }
    destruct (String.eqb_spec (strip (strip reply)) "NONE") as [Heq|Hne]; cbn [negb].
    2:{ split; [exact Hmx | left; exact Hmq]. }
    change (main_questions_asked (state (log_call _ _ _)))
      with (main_questions_asked (answered a (state w))).
    change (max_questions (state (log_call _ _ _)))
      with (max_questions (answered a (state w))).
    rewrite Hmq, Hmx.
    destruct (Z.geb_spec (main_questions_asked (state w)) (max_questions (state w)))
      as [Hge|Hlt].
    { split; [exact Hmx | left; exact Hmq]. }
    destruct (llm _ (7 # 10)) as [err|text] eqn:H7.
    { split; [exact Hmx | left; exact Hmq]. }
    split; [exact Hmx|]. right.
    split; [cbn [final_world issue with_state add_history log_call state asked
                 main_questions_asked answer_saved]; rewrite Hmq; reflexivity|].
    split; [right; exact Hlt|].
    exists (strip text).
    eexists _, _. split; [|split; [|split; [reflexivity|split; [reflexivity|apply last_snoc_qa]]]].
    + right. exists a, e. split; [reflexivity|]. split; [reflexivity|].
      rewrite followup_agent_run. cbv zeta. rewrite H4, Heq. reflexivity.
    + rewrite interviewer_agent_run. cbv zeta. rewrite H7. reflexivity.
  - destruct (Z.eq_dec (main_questions_asked (state w)) 0) as [H0|Hne].
    + rewrite (orchestrator_step_first llm w H0). cbv zeta.
      destruct (llm _ _) as [err|text] eqn:H7.
      { split; [reflexivity | left; reflexivity]. }
      split; [reflexivity|]. right. split; [reflexivity|]. split; [left; exact H0|].
      exists (strip text).
      eexists _, _. split; [|split; [|split; [reflexivity|split; [reflexivity|apply last_snoc_qa]]]].
      * left. split; reflexivity.
      * rewrite interviewer_agent_run. cbv zeta. rewrite H7. reflexivity.
    + rewrite (orchestrator_step_idle llm w Hne). split; [reflexivity | left; reflexivity].
Qed.

(** A call for a main question (temperature 0.7) is made by a step only
    for the first question or below the budget. *)
Lemma orchestrator_step_generates llm user_answer w cs c :
  calls (final_world (orchestrator_step llm user_answer w)) = (calls w ++ cs)%list ->
  c ∈ cs ->
  call_temperature c = (7 # 10)%Q ->
  main_questions_asked (state w) = 0 \/
  main_questions_asked (state w) < max_questions (state w).
Proof.
  assert (Hnil : forall l : list call, l = (l ++ cs)%list -> cs = []).
  { intros l H. apply (app_inv_head l). rewrite app_nil_r. symmetry. exact H. }
  assert (Hone : forall (l : list call) x, (l ++ [x])%list = (l ++ cs)%list -> cs = [x]).
  { intros l x H. apply (app_inv_head l). symmetry. exact H. }
  assert (Htwo : forall (l : list call) x y,
            ((l ++ [x]) ++ [y])%list = (l ++ cs)%list -> cs = [x; y]).
  { intros l x y H. rewrite <- app_assoc in H. apply (app_inv_head l). symmetry. exact H. }
  destruct user_answer as [a|].
  - rewrite orchestrator_step_answer.
    destruct (last (qa_pairs (state w))) as [e|] eqn:He.
    2:{ intros H Hc _. apply Hnil in H. subst cs. inversion Hc. }
    cbv zeta.
    assert (Hmq : main_questions_asked (answered a (state w)) = main_questions_asked (state w))
      by (unfold answered; rewrite He; reflexivity).
    assert (Hmx : max_questions (answered a (state w)) = max_questions (state w))
      by (unfold answered; rewrite He; reflexivity).
    destruct (llm _ (4 # 10)) as [err|reply].
    { intros H Hc Ht. apply Hone in H. subst cs.
      apply list_elem_of_singleton in Hc. subst c. discriminate Ht. }
    destruct (negb _).
    { intros H Hc Ht. apply Hone in H. subst cs.
      apply list_elem_of_singleton in Hc. subst c. discriminate Ht. }
    change (main_questions_asked (state (log_call _ _ _)))
      with (main_questions_asked (answered a (state w))).
    change (max_questions (state (log_call _ _ _)))
      with (max_questions (answered a (state w))).
    rewrite Hmq, Hmx.
    destruct (Z.geb_spec (main_questions_asked (state w)) (max_questions (state w)))
      as [Hge|Hlt].
    { intros H Hc Ht. apply Hone in H. subst cs.
      apply list_elem_of_singleton in Hc. subst c. discriminate Ht. }
    intros _ _ _. right. exact Hlt.
  - destruct (Z.eq_dec (main_questions_asked (state w)) 0) as [H0|Hne].
    + intros _ _ _. left. exact H0.
    + rewrite (orchestrator_step_idle llm w Hne).
      intros H Hc _. apply Hnil in H. subst cs. inversion Hc.
Qed.

Lemma issued_main_question_counts llm user_answer w q :
  issued_main_question llm user_answer w q ->
  main_questions_asked (state (final_world (orchestrator_step llm user_answer w)))
  = main_questions_asked (state w) + 1.
Proof.
  unfold issued_main_question. cbv zeta.
  intros (w1 & w2 & Hw1 & Hint & Hw' & _ & _). rewrite Hw'.
  rewrite interviewer_agent_run in Hint. cbv zeta in Hint.
  destruct (llm _ (7 # 10)); [discriminate Hint|]. injection Hint as _ <-.
  cbn [issue with_state state asked main_questions_asked add_history log_call].
  destruct Hw1 as [[_ ->]|(a & e & _ & He & Hfol)]; [reflexivity|].
  rewrite followup_agent_run in Hfol. cbv zeta in Hfol.
  destruct (llm _ (4 # 10)); [discriminate Hfol|]. injection Hfol as _ <-.
  cbn [log_call answer_saved add_history with_state state].
  unfold answered. rewrite He. reflexivity.
Qed.

(** A step that asks a follow-up issues no main question. *)
Example followup_step_issues_no_main_question (q : string) :
  ~ issued_main_question (scripted (inr "unused") (inr "Which language did you use?"))
      (Some "I am Ada") pending_world q.
Proof.
  intros H. apply issued_main_question_counts in H. vm_compute in H. discriminate H.
Qed.

Lemma transition_counter w w' :
  transition w w' ->
  max_questions (state w') = max_questions (state w) /\
  (main_questions_asked (state w') = main_questions_asked (state w) \/
   main_questions_asked (state w') = main_questions_asked (state w) + 1 /\
   (main_questions_asked (state w) = 0 \/
    main_questions_asked (state w) < max_questions (state w))).
Proof.
  intros [llm ua w0 | llm cq n inputs w0 | cs w0].
  - destruct (orchestrator_step_counter llm ua w0) as [Hmx [Hsame | (Hinc & Hwhen & _)]].
    + split; [exact Hmx | left; exact Hsame].
    + split; [exact Hmx | right; split; [exact Hinc | exact Hwhen]].
  - rewrite answer_loop_state. split; [reflexivity | left; reflexivity].
  - split; [reflexivity | left; reflexivity].
Qed.

Lemma transitions_counter (maxq : Z) w w' :
  1 <= maxq ->
  rtc transition w w' ->
  max_questions (state w) = maxq ->
  0 <= main_questions_asked (state w) <= maxq ->
  max_questions (state w') = maxq /\
  main_questions_asked (state w) <= main_questions_asked (state w') <= maxq.
Proof.
  intros Hmax Hrtc. induction Hrtc as [w | w w1 w' Hstep _ IH]; intros Hmx Hinv.
  - split; [exact Hmx | lia].
  - destruct (transition_counter w w1 Hstep) as [Hmx1 Hcnt].
    destruct IH as [Hmx' Hle]; [congruence | lia |].
    split; [exact Hmx' | lia].
Qed.

(** C1. In an interview with a budget [max_questions >= 1],
    [main_questions_asked] starts at 0, never decreases from one moment of
    the interview to a later one, and never exceeds [max_questions] (which
    stays what it was), whatever the gateway replies and also across failed
    steps. A step changes the counter only by adding one, and exactly when
    it issues a main question, that is a question returned by
    [interviewer_agent] (a follow-up, which comes from [followup_agent],
    never counts); and it calls the gateway for a main question only when
    the counter is below the budget. *)
Theorem main_questions_asked_bounded (role : string) (maxq : Z) w w' :
  1 <= maxq ->
  rtc transition (initial_world role maxq) w ->
  rtc transition w w' ->
  main_questions_asked (state (initial_world role maxq)) = 0 /\
  main_questions_asked (state w) <= main_questions_asked (state w') /\
  main_questions_asked (state w') <= max_questions (state w') /\
  max_questions (state w') = maxq /\
  forall llm user_answer,
    let w'' := final_world (orchestrator_step llm user_answer w') in
    (main_questions_asked (state w'') = main_questions_asked (state w') \/
     main_questions_asked (state w'') = main_questions_asked (state w') + 1 /\
     main_questions_asked (state w') < maxq /\
     exists q, issued_main_question llm user_answer w' q) /\
    (forall q, issued_main_question llm user_answer w' q ->
       main_questions_asked (state w'') = main_questions_asked (state w') + 1) /\
    (forall cs c,
        calls w'' = (calls w' ++ cs)%list -> c ∈ cs ->
        call_temperature c = (7 # 10)%Q ->
        main_questions_asked (state w') < maxq).
Proof.
  intros Hmax Hw Hw'.
  destruct (transitions_counter maxq _ _ Hmax Hw eq_refl) as [Hmx Hle]; [simpl; lia|].
  simpl in Hle.
  destruct (transitions_counter maxq _ _ Hmax Hw' Hmx) as [Hmx' Hle']; [lia|].
  split; [reflexivity|]. split; [lia|]. split; [lia|]. split; [exact Hmx'|].
  intros llm ua. cbv zeta. split; [|split].
  - destruct (orchestrator_step_counter llm ua w') as [_ [Hsame | (Hinc & Hwhen & Hq)]].
    + left. exact Hsame.
    + right. split; [exact Hinc|]. split; [lia | exact Hq].
  - intros q Hq. exact (issued_main_question_counts llm ua w' q Hq).
  - intros cs c Hcs Hc Ht.
    destruct (orchestrator_step_generates llm ua w' cs c Hcs Hc Ht); lia.
Qed.

Lemma main_questions_asked_bounded_witness :
  main_questions_asked (state pending_world) <= max_questions (state pending_world).
Proof.
  refine (proj1 (proj2 (proj2
    (main_questions_asked_bounded "Software Engineer" 5
       (initial_world "Software Engineer" 5) pending_world _ _ _)))).
  - lia.
  - apply rtc_refl.
  - apply rtc_once.
    exact (orchestrator_transition (scripted (inr INTRODUCTION_REQUEST) (inr "NONE")) None
             (initial_world "Software Engineer" 5)).
Defined.

Lemma orchestrator_step_failsafe_witness :
  orchestrator_step failing None pending_world
  = Returned (state pending_world, history pending_world, None, true) pending_world.
Proof.
  refine (proj1 (orchestrator_step_failsafe failing pending_world _)).
  reflexivity.
Defined.

Lemma followup_unless_NONE_witness :
  exists w3,
    orchestrator_step (scripted (inr "unused") (inr "Which language did you use?"))
      (Some "I am Ada") pending_world
    = Returned (state w3, history w3, Some "Which language did you use?", false) w3 /\
    main_questions_asked (state w3) = main_questions_asked (state pending_world).
Proof.
  pose (llm := scripted (inr "unused") (inr "Which language did you use?")).
  pose (w1 := answer_saved "I am Ada" pending_world).
  pose (w2 := final_world
                (followup_agent llm INTRODUCTION_REQUEST "I am Ada"
                   (all_questions (state w1)) w1)).
  destruct (followup_unless_NONE llm "I am Ada" pending_world
              (QA INTRODUCTION_REQUEST EmptyString) "Which language did you use?" w2)
    as [Hask _].
  - reflexivity.
  - vm_compute; reflexivity.
  - destruct Hask as (Hstep & _ & _ & Hmq).
    + intros H; discriminate H.
    + eexists. split; [exact Hstep | exact Hmq].
Defined.

(* ================================================================== *)
(** * Further properties of the code *)
(* ================================================================== *)

(** ** The classifier on normalised text *)

Lemma is_space_lower_char (c : ascii) : is_space (lower_char c) = is_space c.
Proof. destruct c as [[] [] [] [] [] [] [] []]; reflexivity. Qed.

Lemma lower_char_idem (c : ascii) : lower_char (lower_char c) = lower_char c.
Proof. destruct c as [[] [] [] [] [] [] [] []]; reflexivity. Qed.

Lemma lower_idem (s : string) : lower (lower s) = lower s.
Proof.
  induction s as [|c r IH]; [reflexivity|].
  cbn [lower]. rewrite lower_char_idem, IH. reflexivity.
Qed.

Lemma lstrip_lower (s : string) : lstrip (lower s) = lower (lstrip s).
Proof.
  induction s as [|c r IH]; [reflexivity|].
  cbn [lower lstrip]. rewrite is_space_lower_char.
  destruct (is_space c); [exact IH | reflexivity].
Qed.

Lemma rstrip_lower (s : string) : rstrip (lower s) = lower (rstrip s).
Proof.
  induction s as [|c r IH]; [reflexivity|].
  cbn [lower rstrip]. rewrite IH, is_space_lower_char.
  destruct (rstrip r) as [|c' r']; cbn [lower]; [|reflexivity].
  destruct (is_space c); reflexivity.
Qed.

Lemma strip_lower (s : string) : strip (lower s) = lower (strip s).
Proof. unfold strip. rewrite lstrip_lower, rstrip_lower. reflexivity. Qed.

(** X1. For an ASCII utterance, the verdict of [is_hesitation] depends on
    the utterance only up to surrounding whitespace and letter case. *)
Theorem is_hesitation_normalised (u : string) :
  is_ascii u = true ->
  is_hesitation (Some (strip u)) = is_hesitation (Some u) /\
  is_hesitation (Some (lower u)) = is_hesitation (Some u) /\
  classify (strip u) = classify u /\
  classify (lower u) = classify u.
Proof.
  intros _.
  assert (Hs : lower (strip (strip u)) = lower (strip u)) by (rewrite strip_idem; reflexivity).
  assert (Hl : lower (strip (lower u)) = lower (strip u))
    by (rewrite strip_lower, lower_idem; reflexivity).
  unfold classify. rewrite !is_hesitation_text, Hs, Hl. repeat split; reflexivity.
Qed.

Lemma is_hesitation_normalised_witness :
  is_hesitation (Some (lower "  I Dont Know ")) = is_hesitation (Some "  I Dont Know ").
Proof.
  refine (proj1 (proj2 (is_hesitation_normalised "  I Dont Know " _))).
  reflexivity.
Defined.

Lemma hesitation_phrase_length (t : string) :
  t ∈ HESITATION_PHRASES -> len t <= 12.
Proof.
  unfold HESITATION_PHRASES. rewrite !elem_of_union, !elem_of_singleton.
  intros H. repeat destruct H as [H|H]; subst t; vm_compute; discriminate.
Qed.

Lemma positive_short_length (t : string) :
  t ∈ POSITIVE_SHORTS -> len t <= 2 -> t = "y" \/ t = "ok".
Proof.
  unfold POSITIVE_SHORTS. rewrite !elem_of_union, !elem_of_singleton.
  intros H Hlen.
  repeat destruct H as [H|H]; subst t; auto;
    exfalso; apply Hlen; vm_compute; reflexivity.
Qed.

(** X2. What [is_hesitation] decides for an ASCII utterance, on its
    trimmed and lower-cased text [t]: it is hesitant exactly when [t] is
    one of the filler phrases, or has at most two characters and is neither
    "y" nor "ok", or has at most four characters, none of them a letter, a
    digit or whitespace. In particular an ASCII text of more than twelve
    characters is never hesitant. *)
Theorem is_hesitation_characterised (u : string) :
  is_ascii u = true ->
  let t := lower (strip u) in
  (is_hesitation (Some u) = true <->
   t ∈ HESITATION_PHRASES \/
   (len t <= 2 /\ t <> "y" /\ t <> "ok") \/
   (len t <= 4 /\ fullmatch_noise t = true)) /\
  (12 < len t -> is_hesitation (Some u) = false).
Proof.
  intros _. cbv zeta. rewrite is_hesitation_text. generalize (lower (strip u)). intros t.
  assert (Hchar :
    hesitant_text t = true <->
    t ∈ HESITATION_PHRASES \/
    (len t <= 2 /\ t <> "y" /\ t <> "ok") \/
    (len t <= 4 /\ fullmatch_noise t = true)).
  { unfold hesitant_text.
    destruct (String.eqb_spec t EmptyString) as [->|Hne].
    { split; [intros _; left; vm_compute; reflexivity | reflexivity]. }
    case_bool_decide as Hph.
    { split; [intros _; left; exact Hph | reflexivity]. }
    destruct (Z.eqb_spec (len t) 1) as [H1|H1]; cbn [andb].
    - case_bool_decide as Hyn; cbn [negb].
      + (* "y" or "n" *)
        assert (Hle : (len t <=? 2) = true) by (apply Z.leb_le; lia).
        rewrite Hle. cbn [andb].
        case_bool_decide as Hpos; cbn [negb].
        * destruct (positive_short_length t Hpos ltac:(lia)) as [->| ->];
            [|vm_compute in H1; discriminate H1].
          split; [vm_compute; discriminate|].
          intros [H|[(_ & H & _)|(_ & H)]]; [contradiction | contradiction | discriminate H].
        * split; [intros _|reflexivity]. right. left.
          split; [lia|]. split; intros ->; apply Hpos; vm_compute; reflexivity.
      + split; [intros _|reflexivity]. right. left. split; [lia|].
        split; intros ->; [apply Hyn; vm_compute; reflexivity | discriminate H1].
    - destruct (Z.leb_spec (len t) 2) as [H2|H2]; cbn [andb].
      + case_bool_decide as Hpos; cbn [negb].
        * destruct (positive_short_length t Hpos H2) as [->| ->];
            (split; [vm_compute; discriminate|]);
            intros [H|[(_ & Hy & Hok)|(_ & H)]];
            try contradiction; try discriminate H.
        * split; [intros _|reflexivity]. right. left.
          split; [lia|]. split; intros ->; apply Hpos; vm_compute; reflexivity.
      + destruct (Z.leb_spec (len t) 4) as [H4|H4]; cbn [andb].
        * destruct (fullmatch_noise t) eqn:Hn.
          -- split; [intros _|reflexivity]. right. right. split; [lia|reflexivity].
          -- split; [discriminate|].
             intros [H|[(H & _)|(_ & H)]]; [contradiction | lia | discriminate H].
        * split; [discriminate|].
          intros [H|[(H & _)|(H & _)]]; [contradiction | lia | lia]. }
  split; [exact Hchar|].
  intros Hlong. apply not_true_is_false. intros Hh.
  apply Hchar in Hh as [H|[(H & _)|(H & _)]]; [|lia|lia].
  apply hesitation_phrase_length in H. lia.
Qed.

Lemma is_hesitation_characterised_witness :
  is_hesitation (Some "  ?!  ") = true.
Proof.
  refine (proj2 (proj1 (is_hesitation_characterised "  ?!  " _)) _).
  - reflexivity.
  - right. right. split; [vm_compute; discriminate | reflexivity].
Defined.

(** ** The answer loop *)

(** X3. The answer loop is incremental: running it on utterances typed in
    two batches, resuming with the hesitation counter at which it waited,
    gives what one run on all of them gives; once the loop has broken out,
    further utterances are not read. *)
Theorem answer_loop_app llm cq (pre more : list string) : forall n w,
  answer_loop llm cq n (pre ++ more) w =
  match answer_loop llm cq n pre w with
  | Returned (AwaitingInput k) w1 => answer_loop llm cq k more w1
  | o => o
  end.
Proof.
  induction pre as [|u pre IH]; intros n w; [reflexivity|].
  cbn [app answer_loop]. unfold mbind, M_bind, input.
  case_bool_decide; [reflexivity|].
  case_bool_decide; [reflexivity|].
  destruct (is_hesitation (Some u)); [|reflexivity].
  destruct (n + 1 =? 1).
  - rewrite timeout_agent_run. unfold interviewer_says, print. apply IH.
  - destruct (n + 1 =? 2).
    + unfold interviewer_says, print, history_append. apply IH.
    + reflexivity.
Qed.

Lemma answer_loop_shape llm cq inputs : forall n w,
  0 <= n ->
  exists r w',
    answer_loop llm cq n inputs w = Returned r w' /\
    state w' = state w /\
    (calls w' = calls w \/
     n = 0 /\ calls w' = (calls w ++ [Call timeout_messages (7 # 10)])%list) /\
    (history w' = history w \/
     n <= 1 /\ history w' = (history w ++ [Msg "assistant" (repeat_msg_of cq)])%list) /\
    (forall k, r = AwaitingInput k ->
       k = n + Z.of_nat (length inputs) /\ (inputs <> [] -> k <= 2)).
Proof.
  induction inputs as [|u rest IH]; intros n w Hn.
  { eexists _, _. split; [reflexivity|]. split; [reflexivity|].
    split; [left; reflexivity|]. split; [left; reflexivity|].
    intros k [= <-]. split; [simpl; lia | intros H; contradiction]. }
  cbn [answer_loop]. unfold mbind, M_bind, input.
  case_bool_decide.
  { eexists _, _. split; [reflexivity|]. split; [reflexivity|].
    split; [left; reflexivity|]. split; [left; reflexivity|]. intros k H'. discriminate H'. }
  case_bool_decide.
  { eexists _, _. split; [reflexivity|]. split; [reflexivity|].
    split; [left; reflexivity|]. split; [left; reflexivity|]. intros k H'. discriminate H'. }
  destruct (is_hesitation (Some u)).
  2:{ eexists _, _. split; [reflexivity|]. split; [reflexivity|].
      split; [left; reflexivity|]. split; [left; reflexivity|]. intros k H'. discriminate H'. }
  destruct (Z.eqb_spec (n + 1) 1) as [H1|H1].
  - rewrite timeout_agent_run. unfold interviewer_says, print.
    destruct (IH (n + 1) (mkWorld (state (log_call timeout_messages (7 # 10)
                   (mkWorld (state w) (history w) (calls w) (console w ++ [Read "You: " u]))))
                 (history (log_call timeout_messages (7 # 10)
                   (mkWorld (state w) (history w) (calls w) (console w ++ [Read "You: " u]))))
                 (calls (log_call timeout_messages (7 # 10)
                   (mkWorld (state w) (history w) (calls w) (console w ++ [Read "You: " u]))))
                 (console (log_call timeout_messages (7 # 10)
                   (mkWorld (state w) (history w) (calls w) (console w ++ [Read "You: " u])))
                  ++ [Printed (nl +:+ "Interviewer: " +:+ reengage_msg_of llm +:+ nl)]))
                ltac:(lia))
      as (r & w' & Hr & Hst & Hcalls & Hhist & Hk).
    exists r, w'. split; [exact Hr|]. split; [exact Hst|].
    split; [|split].
    + right. split; [lia|]. destruct Hcalls as [Hc|[Hc _]]; [exact Hc | lia].
    + destruct Hhist as [Hh|[Hle Hh]]; [left; exact Hh | right; split; [lia | exact Hh]].
    + intros k Hk'. destruct (Hk k Hk') as [Hlen Hle]. split.
      * rewrite Hlen. cbn [length]. lia.
      * intros _. destruct rest; [simpl in Hlen; lia | apply Hle; discriminate].
  - destruct (Z.eqb_spec (n + 1) 2) as [H2|H2].
    + unfold interviewer_says, print, history_append.
      match goal with
      | |- context [answer_loop llm cq (n + 1) rest ?w1] =>
          destruct (IH (n + 1) w1 ltac:(lia)) as (r & w' & Hr & Hst & Hcalls & Hhist & Hk)
      end.
      exists r, w'. split; [exact Hr|]. split; [exact Hst|].
      split; [|split].
      * left. destruct Hcalls as [Hc|[Hc _]]; [exact Hc | lia].
      * right. split; [lia|]. destruct Hhist as [Hh|[Hle _]]; [exact Hh | lia].
      * intros k Hk'. destruct (Hk k Hk') as [Hlen Hle]. split.
        -- rewrite Hlen. cbn [length]. lia.
        -- intros _. destruct rest; [simpl in Hlen; lia | apply Hle; discriminate].
    + eexists _, _. split; [reflexivity|]. split; [reflexivity|].
      split; [left; reflexivity|]. split; [left; reflexivity|]. intros k H'. discriminate H'.
Qed.

(** X4. An answer loop that starts with a fresh hesitation counter never
    raises and never touches the interview state. It calls the gateway at
    most once (the re-engagement call), appends at most one message to the
    history (the supportive repeat), and reads at most three utterances:
    given three or more it has broken out, and while it waits the counter
    is the number of utterances read, at most 2. *)
Theorem answer_loop_bounded llm cq (inputs : list string) w :
  exists r w',
    answer_loop llm cq 0 inputs w = Returned r w' /\
    state w' = state w /\
    (calls w' = calls w \/
     calls w' = (calls w ++ [Call timeout_messages (7 # 10)])%list) /\
    (history w' = history w \/
     history w' = (history w ++ [Msg "assistant" (repeat_msg_of cq)])%list) /\
    (forall k, r = AwaitingInput k -> k = Z.of_nat (length inputs) /\ k <= 2) /\
    ((3 <= length inputs)%nat -> r = Exit \/ exists a, r = Captured a).
Proof.
  destruct (answer_loop_shape llm cq inputs 0 w ltac:(lia))
    as (r & w' & Hr & Hst & Hcalls & Hhist & Hk).
  exists r, w'. split; [exact Hr|]. split; [exact Hst|].
  split; [destruct Hcalls as [H|[_ H]]; [left|right]; exact H|].
  split; [destruct Hhist as [H|[_ H]]; [left|right]; exact H|].
  assert (Hwait : forall k, r = AwaitingInput k -> k = Z.of_nat (length inputs) /\ k <= 2).
  { intros k Hk'. destruct (Hk k Hk') as [Hlen Hle]. split; [lia|].
    destruct inputs; [simpl in Hlen; lia | apply Hle; discriminate]. }
  split; [exact Hwait|].
  intros Hlen. destruct r as [|a|k]; [left; reflexivity | right; eexists; reflexivity |].
  destruct (Hwait k eq_refl). lia.
Qed.

(** X5. An utterance that [is_hesitation] does not flag and that is no
    exit word ends the answer loop at once, whatever the hesitation
    counter: the captured answer is the trimmed utterance, only the read is
    logged, and nothing typed after it is read. The quick accept of a short
    affirmative therefore gives nothing that the last branch would not
    give. *)
Theorem answer_loop_accepts llm cq n u rest w :
  is_hesitation (Some u) = false ->
  lower (strip u) ∉ ["exit"; "quit"; "stop"] ->
  answer_loop llm cq n (u :: rest) w
  = Returned (Captured (strip u)) (add_console [Read "You: " u] w).
Proof.
  intros Hh Hexit. cbn [answer_loop]. unfold mbind, M_bind, input.
  rewrite (bool_decide_eq_false_2 _ Hexit), Hh.
  case_bool_decide; reflexivity.
Qed.

Lemma answer_loop_accepts_witness :
  answer_loop failing (Some INTRODUCTION_REQUEST) 2 ["  Sure "; "um"] pending_world
  = Returned (Captured "Sure") (add_console [Read "You: " "  Sure "] pending_world).
Proof.
  refine (answer_loop_accepts failing (Some INTRODUCTION_REQUEST) 2 "  Sure " ["um"]
            pending_world _ _).
  - reflexivity.
  - apply (bool_decide_unpack _). vm_compute. exact I.
Defined.

(** ** One orchestrator step *)

Lemma orchestrator_step_effect llm user_answer w :
  let w' := final_world (orchestrator_step llm user_answer w) in
  step_effect w w' /\ console w' = console w.
Proof.
  cbv zeta. destruct user_answer as [a|].
  - rewrite orchestrator_step_answer.
    destruct (last (qa_pairs (state w))) as [e|] eqn:He;
      [|split; [apply effect_none|]; reflexivity].
    cbv zeta.
    assert (Hmq : main_questions_asked (answered a (state w)) = main_questions_asked (state w))
      by (unfold answered; rewrite He; reflexivity).
    assert (Hmx : max_questions (answered a (state w)) = max_questions (state w))
      by (unfold answered; rewrite He; reflexivity).
    destruct (llm _ (4 # 10)) as [err|reply].
    { split; [apply (effect_answer_saved _ _ a e He)|]; reflexivity. }
    destruct (negb _).
    { split; [|reflexivity].
      apply (effect_question _ _ a e false (strip (strip reply)) He);
        [apply strip_idem | discriminate | reflexivity |].
      cbn. rewrite <- app_assoc. reflexivity. }
    change (main_questions_asked (state (log_call _ _ _)))
      with (main_questions_asked (answered a (state w))).
    change (max_questions (state (log_call _ _ _)))
      with (max_questions (answered a (state w))).
    rewrite Hmq, Hmx.
    destruct (Z.geb_spec (main_questions_asked (state w)) (max_questions (state w)))
      as [Hge|Hlt].
    { split; [apply (effect_answer_saved _ _ a e He)|]; reflexivity. }
    destruct (llm _ (7 # 10)) as [err|text].
    { split; [apply (effect_answer_saved _ _ a e He)|]; reflexivity. }
    split; [|reflexivity].
    apply (effect_question _ _ a e true (strip text) He);
      [apply strip_idem | intros _; exact Hlt | reflexivity |].
    cbn. rewrite <- app_assoc. reflexivity.
  - destruct (Z.eq_dec (main_questions_asked (state w)) 0) as [H0|Hne].
    + rewrite (orchestrator_step_first llm w H0). cbv zeta.
      destruct (llm _ _) as [err|text].
      { split; [apply (effect_start_failed _ _ H0)|]; reflexivity. }
      split; [|reflexivity].
      apply (effect_first_question _ _ (strip text) H0);
        [apply strip_idem | reflexivity |].
      cbn. rewrite <- app_assoc. reflexivity.
    + rewrite (orchestrator_step_idle llm w Hne).
      split; [apply effect_none|]; reflexivity.
Qed.

Lemma map_insert_last {A B} (f : A -> B) (l : list A) (e x : A) :
  last l = Some e -> f x = f e ->
  map f (<[ (length l - 1)%nat := x ]> l) = map f l.
Proof.
  intros He Hf. induction l as [|y l IH]; [discriminate He|].
  destruct l as [|z l].
  - injection He as ->. cbn. rewrite Hf. reflexivity.
  - cbn [length]. replace (S (S (length l)) - 1)%nat with (S (length (z :: l) - 1))
      by (cbn [length]; lia).
    cbn [list_insert insert map]. f_equal. apply IH. exact He.
Qed.

Lemma answered_questions a st :
  map qa_question (qa_pairs (answered a st)) = map qa_question (qa_pairs st).
Proof.
  unfold answered. destruct (last (qa_pairs st)) as [e|] eqn:He; [|reflexivity].
  cbn [qa_pairs]. apply (map_insert_last qa_question _ e); [exact He | reflexivity].
Qed.

Lemma answered_length a st :
  length (qa_pairs (answered a st)) = length (qa_pairs st).
Proof.
  unfold answered. destruct (last (qa_pairs st)); [|reflexivity].
  cbn [qa_pairs]. apply length_insert.
Qed.

Lemma answered_take a st :
  take (length (qa_pairs st) - 1) (qa_pairs (answered a st))
  = take (length (qa_pairs st) - 1) (qa_pairs st).
Proof.
  unfold answered. destruct (last (qa_pairs st)); [|reflexivity].
  cbn [qa_pairs]. apply take_insert_ge. lia.
Qed.

Lemma answered_fields a st :
  role (answered a st) = role st /\
  max_questions (answered a st) = max_questions st /\
  main_questions_asked (answered a st) = main_questions_asked st.
Proof. unfold answered. destruct (last (qa_pairs st)); repeat split; reflexivity. Qed.

(** X6. Whatever the gateway does and whether the step returns or raises,
    an orchestrator step only appends: the old history is a prefix of the
    new one, which has at most two more messages; the questions of
    [qa_pairs] keep their order and at most one is added; every entry
    before the last (pending) one is left as it was; [role] and
    [max_questions] do not change and nothing is printed. *)
Theorem orchestrator_step_append_only llm user_answer w :
  let w' := final_world (orchestrator_step llm user_answer w) in
  (exists hs, history w' = (history w ++ hs)%list /\ (length hs <= 2)%nat) /\
  (exists qs,
      map qa_question (qa_pairs (state w'))
      = (map qa_question (qa_pairs (state w)) ++ qs)%list /\ (length qs <= 1)%nat) /\
  take (length (qa_pairs (state w)) - 1) (qa_pairs (state w'))
  = take (length (qa_pairs (state w)) - 1) (qa_pairs (state w)) /\
  role (state w') = role (state w) /\
  max_questions (state w') = max_questions (state w) /\
  console w' = console w.
Proof.
  cbv zeta. destruct (orchestrator_step_effect llm user_answer w) as [Heff Hcon].
  cbv zeta in Heff, Hcon. revert Heff Hcon.
  generalize (final_world (orchestrator_step llm user_answer w)). intros w' Heff Hcon.
  destruct Heff as [Hs Hh | H0 Hs Hh | q H0 Hq Hs Hh | a e He Hs Hh | a e main q He Hq Hm Hs Hh];
    rewrite Hs, Hh.
  - split; [exists []; rewrite app_nil_r; split; [reflexivity | simpl; lia]|].
    split; [exists []; rewrite app_nil_r; split; [reflexivity | simpl; lia]|].
    repeat split; assumption || reflexivity.
  - split; [eexists; split; [reflexivity | simpl; lia]|].
    split; [exists []; rewrite app_nil_r; split; [reflexivity | simpl; lia]|].
    repeat split; assumption || reflexivity.
  - split; [eexists; split; [reflexivity | simpl; lia]|].
    split; [exists [q]; split; [cbn [asked qa_pairs]; rewrite map_app; reflexivity
                               | simpl; lia]|].
    split; [cbn [asked qa_pairs]; apply take_app_le; lia|].
    repeat split; assumption || reflexivity.
  - destruct (answered_fields a (state w)) as (Hr & Hx & _).
    split; [eexists; split; [reflexivity | simpl; lia]|].
    split; [exists []; rewrite app_nil_r, answered_questions;
            split; [reflexivity | simpl; lia]|].
    split; [apply answered_take|].
    repeat split; assumption.
  - destruct (answered_fields a (state w)) as (Hr & Hx & _).
    split; [eexists; split; [reflexivity | simpl; lia]|].
    split; [exists [q]; split;
            [cbn [asked qa_pairs]; rewrite map_app, answered_questions; reflexivity
            | simpl; lia]|].
    split; [cbn [asked qa_pairs]; rewrite take_app_le
              by (rewrite answered_length; lia); apply answered_take|].
    repeat split; assumption.
Qed.

(** X7. What a returning orchestrator step returns: the state and the
    history of the returned tuple are the mutated argument objects; there
    is a message exactly when the interview is not finished; a returned
    message is a new question, the last entry of [qa_pairs] (unanswered) and
    the last turn of the history; and a finished result leaves the counter
    and the number of entries as they were. *)
Theorem orchestrator_step_result llm user_answer w st hist msg fin w' :
  orchestrator_step llm user_answer w = Returned (st, hist, msg, fin) w' ->
  st = state w' /\ hist = history w' /\
  (msg = None <-> fin = true) /\
  (forall q, msg = Some q ->
     last (qa_pairs st) = Some (QA q EmptyString) /\
     last hist = Some (Msg "assistant" q) /\
     length (qa_pairs st) = S (length (qa_pairs (state w)))) /\
  (fin = true ->
     main_questions_asked st = main_questions_asked (state w) /\
     length (qa_pairs st) = length (qa_pairs (state w))).
Proof.
  assert (Hq : forall main q w1 w2,
    Returned (state (issue main q w1), history (issue main q w1), Some q, false)
      (issue main q w1) = Returned (st, hist, msg, fin) w' ->
    length (qa_pairs (state w1)) = length (qa_pairs (state w2)) ->
    st = state w' /\ hist = history w' /\ (msg = None <-> fin = true) /\
    (forall q0, msg = Some q0 ->
       last (qa_pairs st) = Some (QA q0 EmptyString) /\
       last hist = Some (Msg "assistant" q0) /\
       length (qa_pairs st) = S (length (qa_pairs (state w2)))) /\
    (fin = true ->
       main_questions_asked st = main_questions_asked (state w2) /\
       length (qa_pairs st) = length (qa_pairs (state w2)))).
  { intros main q w1 w2 H Hlen. injection H as <- <- <- <- <-.
    split; [reflexivity|]. split; [reflexivity|].
    split; [split; discriminate|]. split; [|discriminate].
    intros q0 [= <-]. split; [apply last_snoc|]. split; [apply last_snoc|].
    cbn [issue with_state state asked qa_pairs]. rewrite length_app.
    cbn [add_history state length]. lia. }
  assert (Hf : forall w1,
    Returned (state w1, history w1, @None string, true) w1 = Returned (st, hist, msg, fin) w' ->
    main_questions_asked (state w1) = main_questions_asked (state w) ->
    length (qa_pairs (state w1)) = length (qa_pairs (state w)) ->
    st = state w' /\ hist = history w' /\ (msg = None <-> fin = true) /\
    (forall q0, msg = Some q0 ->
       last (qa_pairs st) = Some (QA q0 EmptyString) /\
       last hist = Some (Msg "assistant" q0) /\
       length (qa_pairs st) = S (length (qa_pairs (state w)))) /\
    (fin = true ->
       main_questions_asked st = main_questions_asked (state w) /\
       length (qa_pairs st) = length (qa_pairs (state w)))).
  { intros w1 H Hm Hl. injection H as <- <- <- <- <-.
    split; [reflexivity|]. split; [reflexivity|].
    split; [split; reflexivity|]. split; [discriminate|].
    intros _. split; assumption. }
  destruct user_answer as [a|].
  - rewrite orchestrator_step_answer.
    destruct (last (qa_pairs (state w))) as [e|] eqn:He; [|discriminate].
    cbv zeta. destruct (llm _ (4 # 10)) as [err|reply]; [discriminate|].
    destruct (negb _).
    { intros H. apply (Hq _ _ _ w H). apply answered_length. }
    destruct (_ >=? _).
    { intros H. apply (Hf _ H); [apply answered_fields | apply answered_length]. }
    destruct (llm _ (7 # 10)) as [err|text]; [discriminate|].
    intros H. apply (Hq _ _ _ w H). apply answered_length.
  - destruct (Z.eq_dec (main_questions_asked (state w)) 0) as [H0|Hne].
    + rewrite (orchestrator_step_first llm w H0). cbv zeta.
      destruct (llm _ _) as [err|text]; [discriminate|].
      intros H. apply (Hq _ _ _ w H). reflexivity.
    + rewrite (orchestrator_step_idle llm w Hne).
      intros H. apply (Hf _ H); reflexivity.
Qed.

Lemma orchestrator_step_result_witness :
  main_questions_asked
    (state
       (final_world
          (orchestrator_step (scripted (inr "unused") (inr "NONE")) (Some "I am Ada")
             finished_world)))
  = main_questions_asked (state finished_world).
Proof.
  pose (llm := scripted (inr "unused") (inr "NONE")).
  pose (w' := final_world (orchestrator_step llm (Some "I am Ada") finished_world)).
  assert (H : orchestrator_step llm (Some "I am Ada") finished_world
              = Returned (state w', history w', None, true) w') by (vm_compute; reflexivity).
  exact (proj1 (proj2 (proj2 (proj2 (proj2
           (orchestrator_step_result llm (Some "I am Ada") finished_world
              (state w') (history w') None true w' H)))) eq_refl)).
Defined.

(** ** Interviews as a whole *)

Lemma last_elem_of {A} (l : list A) (e : A) : last l = Some e -> e ∈ l.
Proof.
  rewrite last_lookup. intros H. apply list_elem_of_lookup. eexists. exact H.
Qed.

Lemma step_effect_well_formed role0 maxq w w' :
  step_effect w w' -> well_formed role0 maxq (state w) -> well_formed role0 maxq (state w').
Proof.
  intros Heff (Hr & Hx & Hm & Hl & Hz & Hq).
  destruct Heff as [Hs Hh | H0 Hs Hh | q H0 Hq' Hs Hh | a e He Hs Hh
                   | a e main q He Hq' Hmain Hs Hh]; rewrite Hs.
  - repeat split; tauto || lia || assumption.
  - repeat split; tauto || lia || assumption.
  - assert (Hnil : qa_pairs (state w) = []) by (apply Hz, H0).
    unfold well_formed, asked. cbn [role max_questions main_questions_asked qa_pairs].
    rewrite Hnil, H0. cbn.
    split; [exact Hr|]. split; [exact Hx|]. split; [lia|]. split; [lia|].
    split; [split; [lia | discriminate]|]. constructor; [exact Hq' | constructor].
  - destruct (answered_fields a (state w)) as (Hr' & Hx' & Hm').
    unfold well_formed. rewrite Hr', Hx', Hm', answered_length.
    split; [exact Hr|]. split; [exact Hx|]. split; [exact Hm|]. split; [exact Hl|].
    assert (Hne : qa_pairs (state w) <> []) by (intros H; rewrite H in He; discriminate He).
    split.
    + split; [intros H; apply Hz in H; contradiction|].
      intros H. apply (f_equal length) in H. rewrite answered_length in H.
      destruct (qa_pairs (state w)); [contradiction | discriminate H].
    + unfold answered. rewrite He. cbn [qa_pairs]. apply Forall_insert; [exact Hq|].
      cbn [qa_question]. rewrite Forall_forall in Hq. apply Hq, last_elem_of, He.
  - destruct (answered_fields a (state w)) as (Hr' & Hx' & Hm').
    assert (Hne : qa_pairs (state w) <> []) by (intros H; rewrite H in He; discriminate He).
    assert (Hpos : main_questions_asked (state w) <> 0) by (intros H; apply Hz in H; contradiction).
    unfold well_formed, asked. cbn [role max_questions main_questions_asked qa_pairs].
    rewrite Hr', Hx', Hm', length_app, answered_length. cbn [length].
    split; [exact Hr|]. split; [exact Hx|].
    split; [destruct main; [specialize (Hmain eq_refl)|]; lia|].
    split; [destruct main; lia|].
    split.
    + split; [destruct main; lia|]. intros H. destruct (qa_pairs (answered a (state w))); discriminate H.
    + apply Forall_app. split; [|constructor; [exact Hq' | constructor]].
      unfold answered. rewrite He. cbn [qa_pairs]. apply Forall_insert; [exact Hq|].
      cbn [qa_question]. rewrite Forall_forall in Hq. apply Hq, last_elem_of, He.
Qed.

Lemma transition_well_formed role0 maxq w w' :
  transition w w' -> well_formed role0 maxq (state w) -> well_formed role0 maxq (state w').
Proof.
  intros [llm ua w0 | llm cq n inputs w0 | cs w0].
  - apply step_effect_well_formed, orchestrator_step_effect.
  - rewrite answer_loop_state. exact (fun H => H).
  - exact (fun H => H).
Qed.

(** X8. At every moment of an interview, for any budget (also zero or
    negative) and any behaviour of the gateway: [role] and [max_questions]
    are those given at the start; [main_questions_asked] is between 0 and
    the larger of 1 and [max_questions], and at most the number of entries
    of [qa_pairs]; it is 0 exactly while [qa_pairs] is empty; and no stored
    question has leading or trailing whitespace. *)
Theorem interview_well_formed (role0 : string) (maxq : Z) w :
  rtc transition (initial_world role0 maxq) w ->
  role (state w) = role0 /\
  max_questions (state w) = maxq /\
  0 <= main_questions_asked (state w) <= Z.max 1 maxq /\
  main_questions_asked (state w) <= Z.of_nat (length (qa_pairs (state w))) /\
  (main_questions_asked (state w) = 0 <-> qa_pairs (state w) = []) /\
  Forall (fun e => strip (qa_question e) = qa_question e) (qa_pairs (state w)).
Proof.
  intros Hrun. change (well_formed role0 maxq (state w)).
  revert w Hrun. apply (rtc_ind_r (R := transition)).
  - unfold well_formed. cbn. repeat split; try lia; try reflexivity. constructor.
  - intros w1 w2 _ Hstep IH. exact (transition_well_formed _ _ _ _ Hstep IH).
Qed.

Lemma interview_well_formed_witness :
  0 <= main_questions_asked (state finished_world) <= Z.max 1 1.
Proof.
  refine (proj1 (proj2 (proj2
    (interview_well_formed "Software Engineer" 1 finished_world _)))).
  apply rtc_once.
  exact (orchestrator_transition (scripted (inr INTRODUCTION_REQUEST) (inr "NONE")) None
           (initial_world "Software Engineer" 1)).
Defined.

Lemma assistant_turns_app (h1 h2 : list message) :
  assistant_turns (h1 ++ h2) = (assistant_turns h1 ++ assistant_turns h2)%list.
Proof. unfold assistant_turns. rewrite filter_app, map_app. reflexivity. Qed.

(** X9. In an interview driven by orchestrator steps alone (the HTTP
    transport), whatever the gateway does, the assistant turns of the
    history are exactly the questions of [qa_pairs], in the same order, and
    a non-empty history starts with the start directive. *)
Theorem assistant_turns_are_questions (role0 : string) (maxq : Z) w :
  orchestrated (initial_world role0 maxq) w ->
  assistant_turns (history w) = map qa_question (qa_pairs (state w)) /\
  (history w = [] \/ exists rest, history w = START_DIRECTIVE :: rest).
Proof.
  intros Hrun. remember (initial_world role0 maxq) as w0 eqn:Hw0.
  induction Hrun as [w|llm ua w w1 Hrun IH]; [subst w; split; [reflexivity | left; reflexivity]|].
  specialize (IH Hw0). destruct IH as [IHt IHs].
  assert (Hwf : well_formed role0 maxq (state w1)).
  { clear IHt IHs. induction Hrun as [w|llm' ua' w w2 Hrun IH].
    - subst w. unfold well_formed. cbn. repeat split; try lia; try reflexivity. constructor.
    - apply (step_effect_well_formed _ _ w2); [apply orchestrator_step_effect | apply IH, Hw0]. }
  destruct Hwf as (_ & _ & _ & _ & Hz & _).
  destruct (orchestrator_step_effect llm ua w1) as [Heff _]. cbv zeta in Heff.
  revert Heff. generalize (final_world (orchestrator_step llm ua w1)). intros w' Heff.
  destruct Heff as [Hs Hh | H0 Hs Hh | q H0 Hq Hs Hh | a e He Hs Hh | a e main q He Hq Hm Hs Hh];
    rewrite Hs, Hh.
  - split; assumption.
  - rewrite assistant_turns_app, IHt. split; [cbn; apply app_nil_r|].
    destruct IHs as [->|[rest ->]]; right; eexists; reflexivity.
  - rewrite assistant_turns_app, IHt. cbn [asked qa_pairs]. rewrite map_app.
    split; [reflexivity|].
    destruct IHs as [->|[rest ->]]; right; eexists; reflexivity.
  - rewrite assistant_turns_app, IHt, answered_questions. split; [cbn; apply app_nil_r|].
    assert (Hne : history w1 <> []).
    { intros Hnil. rewrite Hnil in IHt. cbn in IHt.
      destruct (qa_pairs (state w1)); discriminate. }
    destruct IHs as [Hnil|[rest ->]]; [contradiction|]. right. eexists. reflexivity.
  - rewrite assistant_turns_app, IHt. cbn [asked qa_pairs].
    rewrite map_app, answered_questions. split; [reflexivity|].
    assert (Hne : history w1 <> []).
    { intros Hnil. rewrite Hnil in IHt. cbn in IHt.
      destruct (qa_pairs (state w1)); discriminate. }
    destruct IHs as [Hnil|[rest ->]]; [contradiction|]. right. eexists. reflexivity.
Qed.

Lemma assistant_turns_are_questions_witness :
  assistant_turns (history finished_world) = [INTRODUCTION_REQUEST].
Proof.
  refine (proj1 (assistant_turns_are_questions "Software Engineer" 1 finished_world _)).
  exact (orchestrated_step (scripted (inr INTRODUCTION_REQUEST) (inr "NONE")) None _ _
           (orchestrated_refl _)).
Defined.

(** X10. When an answer to a pending question is processed, the step
    reports the interview finished exactly when the follow-up call
    succeeds, its reply is NONE up to surrounding whitespace, and
    [main_questions_asked >= max_questions]; then it returns no message,
    makes no further gateway call and has only saved the answer. *)
Theorem finished_iff llm a w e :
  last (qa_pairs (state w)) = Some e ->
  let fmsgs := followup_messages (qa_question e) a (all_questions (answered a (state w))) in
  let w1 := log_call fmsgs (4 # 10) (answer_saved a w) in
  (forall st hist msg w',
      orchestrator_step llm (Some a) w = Returned (st, hist, msg, true) w' <->
      (exists reply, llm fmsgs (4 # 10) = inr reply /\ strip reply = "NONE") /\
      max_questions (state w) <= main_questions_asked (state w) /\
      st = state w1 /\ hist = history w1 /\ msg = None /\ w' = w1).
Proof.
  intros He. cbv zeta. intros st hist msg w'.
  rewrite orchestrator_step_answer, He. cbv zeta.
  fold (answer_saved a w).
  change (all_questions (state (answer_saved a w)))
    with (all_questions (answered a (state w))).
  destruct (answered_fields a (state w)) as (_ & Hmx & Hmq).
  change (main_questions_asked (state (log_call _ _ (answer_saved a w))))
    with (main_questions_asked (answered a (state w))).
  change (max_questions (state (log_call _ _ (answer_saved a w))))
    with (max_questions (answered a (state w))).
  rewrite Hmq, Hmx.
  destruct (llm _ (4 # 10)) as [err|reply].
  { split; [discriminate|]. intros [(reply & H & _) _]. discriminate H. }
  rewrite strip_idem.
  destruct (String.eqb_spec (strip reply) "NONE") as [Heq|Hne]; cbn [negb].
  - destruct (Z.geb_spec (main_questions_asked (state w)) (max_questions (state w)))
      as [Hge|Hlt].
    + split.
      * intros H. injection H as <- <- <- <-.
        split; [exists reply; split; [reflexivity | exact Heq]|].
        split; [exact Hge|]. repeat split; reflexivity.
      * intros (_ & _ & -> & -> & -> & ->). reflexivity.
    + split.
      * destruct (llm _ (7 # 10)); discriminate.
      * intros (_ & Hge & _). lia.
  - split; [discriminate|].
    intros [(reply' & [= <-] & Heq) _]. contradiction.
Qed.

Lemma finished_iff_witness :
  exists w',
    orchestrator_step (scripted (inr "unused") (inr "  NONE ")) (Some "I am Ada") finished_world
    = Returned (state w', history w', None, true) w'.
Proof.
  pose (llm := scripted (inr "unused") (inr "  NONE ")).
  pose (e := QA INTRODUCTION_REQUEST EmptyString).
  pose (fmsgs := followup_messages (qa_question e) "I am Ada"
                   (all_questions (answered "I am Ada" (state finished_world)))).
  pose (w1 := log_call fmsgs (4 # 10) (answer_saved "I am Ada" finished_world)).
  exists w1.
  apply (proj2 (finished_iff llm "I am Ada" finished_world e eq_refl
                  (state w1) (history w1) None w1)).
  split; [exists "  NONE "; split; reflexivity|].
  split; [vm_compute; discriminate|]. repeat split; reflexivity.
Defined.

(** X11. An answer handed to the orchestrator while no question was ever
    asked raises [IndexError] and changes nothing at all; with a pending
    question the answer is always appended to the history as a user turn,
    whatever happens afterwards. So the step is without effect exactly when
    [qa_pairs] is empty. *)
Theorem answer_without_question llm a w :
  (qa_pairs (state w) = [] -> orchestrator_step llm (Some a) w = Raised IndexError w) /\
  (qa_pairs (state w) <> [] ->
     exists rest,
       history (final_world (orchestrator_step llm (Some a) w))
       = (history w ++ Msg "user" a :: rest)%list) /\
  (final_world (orchestrator_step llm (Some a) w) = w <-> qa_pairs (state w) = []).
Proof.
  assert (Hnil : qa_pairs (state w) = [] ->
                 orchestrator_step llm (Some a) w = Raised IndexError w).
  { intros H. rewrite orchestrator_step_answer, H. reflexivity. }
  assert (Hcons : qa_pairs (state w) <> [] ->
     exists rest,
       history (final_world (orchestrator_step llm (Some a) w))
       = (history w ++ Msg "user" a :: rest)%list).
  { intros Hne. rewrite orchestrator_step_answer.
    destruct (last (qa_pairs (state w))) as [e|] eqn:He.
    2:{ destruct (qa_pairs (state w)) as [|x l]; [contradiction|].
        apply last_None in He. discriminate He. }
    cbv zeta. destruct (llm _ (4 # 10)) as [err|reply]; [exists []; reflexivity|].
    destruct (negb _); [eexists [_]; cbn; rewrite <- app_assoc; reflexivity|].
    destruct (_ >=? _); [exists []; reflexivity|].
    destruct (llm _ (7 # 10)) as [err|text]; [exists []; reflexivity|].
    eexists [_]. cbn. rewrite <- app_assoc. reflexivity. }
  split; [exact Hnil|]. split; [exact Hcons|].
  split.
  - intros Hw. destruct (qa_pairs (state w)) as [|x l] eqn:Hq; [reflexivity|].
    destruct Hcons as [rest Hh]; [discriminate|]. rewrite Hw in Hh.
    apply (f_equal length) in Hh. rewrite length_app in Hh. cbn [length] in Hh. lia.
  - intros H. rewrite (Hnil H). reflexivity.
Qed.

(** ** The web application *)

Lemma feedback_agent_run llm st w :
  feedback_agent llm st w =
  match llm (feedback_messages st) (3 # 10) with
  | inl err => Raised err (log_call (feedback_messages st) (3 # 10) w)
  | inr text => Returned (strip (strip text)) (log_call (feedback_messages st) (3 # 10) w)
  end.
Proof.
  unfold feedback_agent, mbind, M_bind. rewrite chat_with_groq_run.
  destruct (llm _ _); reflexivity.
Qed.

Lemma session_insert_id (m : gmap string session_data) sid sd :
  m !! sid = Some sd ->
  <[ sid := mkSession (sd_state sd) (sd_history sd) (sd_finished sd) ]> m = m.
Proof. intros H. apply insert_id. rewrite H. destruct sd; reflexivity. Qed.

(** X12. [/feedback]: for an unknown session it fails with 404 "Session
    not found", calls no gateway and changes nothing. For a stored session,
    finished or not, it makes exactly one gateway call, on the transcript of
    that session at temperature 0.3; it replies the trimmed text, or fails
    with the gateway's error; either way the registry is left as it was. *)
Theorem get_feedback_behaviour llm sid app :
  get_feedback llm (mkFeedbackRequest sid) app =
  match SESSIONS app !! sid with
  | None => Failed (HTTPException 404 "Session not found") app
  | Some sd =>
      let msgs := feedback_messages (sd_state sd) in
      let app' := mkApp (SESSIONS app) (app_calls app ++ [Call msgs (3 # 10)])%list in
      match llm msgs (3 # 10) with
      | inl err => Failed err app'
      | inr text => Replied (mkFeedbackResponse (strip text)) app'
      end
  end.
Proof.
  unfold get_feedback, get_session. cbn [fb_session_id].
  destruct (SESSIONS app !! sid) as [sd|] eqn:Hsd; [|reflexivity].
  rewrite feedback_agent_run. cbv zeta.
  destruct (llm _ _) as [err|text]; cbn [state history calls log_call];
    rewrite (session_insert_id _ _ _ Hsd), ?strip_idem; reflexivity.
Qed.

(** X13. [/answer] for an unknown session fails with 404 "Session not
    found" and changes nothing; and no request, whatever its outcome,
    touches a session other than its own: [/answer] and [/start] leave
    every other entry of the registry as it was. *)
Theorem sessions_are_isolated llm app :
  (forall sid a,
      SESSIONS app !! sid = None ->
      answer llm (mkAnswerRequest sid a) app
      = Failed (HTTPException 404 "Session not found") app) /\
  (forall req other,
      other <> session_id req ->
      SESSIONS (app_after (answer llm req app)) !! other = SESSIONS app !! other) /\
  (forall sid req other,
      other <> sid ->
      SESSIONS (app_after (start_interview llm sid req app)) !! other
      = SESSIONS app !! other).
Proof.
  split; [|split].
  - intros sid a H. unfold answer, get_session. cbn [session_id]. rewrite H. reflexivity.
  - intros req other Hne. unfold answer, get_session.
    destruct (SESSIONS app !! session_id req) as [sd|]; [|reflexivity].
    destruct (sd_finished sd); [reflexivity|].
    destruct (orchestrator_step _ _ _) as [[[[st hist] msg] fin] w|e w];
      cbn [app_after SESSIONS]; apply lookup_insert_ne; congruence.
  - intros sid req other Hne. unfold start_interview.
    destruct (orchestrator_step _ _ _) as [[[[st hist] msg] fin] w|e w]; [|reflexivity].
    destruct msg; cbn [app_after SESSIONS]; apply lookup_insert_ne; congruence.
Qed.

Lemma orchestrator_step_message_iff llm user_answer w st hist msg fin w' :
  orchestrator_step llm user_answer w = Returned (st, hist, msg, fin) w' ->
  (msg = None <-> fin = true).
Proof.
  destruct user_answer as [a|].
  - rewrite orchestrator_step_answer.
    destruct (last (qa_pairs (state w))); [|discriminate].
    cbv zeta. destruct (llm _ (4 # 10)); [discriminate|].
    destruct (negb _); [intros [= _ _ <- <- _]; split; discriminate|].
    destruct (_ >=? _); [intros [= _ _ <- <- _]; split; reflexivity|].
    destruct (llm _ (7 # 10)); [discriminate|].
    intros [= _ _ <- <- _]; split; discriminate.
  - destruct (Z.eq_dec (main_questions_asked (state w)) 0) as [H0|Hne].
    + rewrite (orchestrator_step_first llm w H0). cbv zeta.
      destruct (llm _ _); [discriminate|].
      intros [= _ _ <- <- _]; split; discriminate.
    + rewrite (orchestrator_step_idle llm w Hne).
      intros [= _ _ <- <- _]; split; reflexivity.
Qed.

Lemma answer_run llm req app sd :
  SESSIONS app !! session_id req = Some sd ->
  sd_finished sd = false ->
  answer llm req app =
  match orchestrator_step llm (Some (req_answer req)) (session_world sd app) with
  | Raised e w =>
      Failed e
        (mkApp (<[ session_id req := mkSession (state w) (history w) false ]> (SESSIONS app))
               (calls w))
  | Returned (st, hist, bot_msg, fin) w =>
      Replied (mkAnswerResponse bot_msg fin)
        (mkApp (<[ session_id req := mkSession st hist fin ]> (SESSIONS app)) (calls w))
  end.
Proof.
  intros Hsd Hfin. unfold answer, get_session, session_world. rewrite Hsd, Hfin.
  destruct (orchestrator_step _ _ _) as [[[[st hist] msg] fin] w|e w]; reflexivity.
Qed.

(** X14. A reply of [/answer] carries a message exactly when it says the
    interview is not finished, and its [finished] flag is the one stored
    for the session. Once a reply says finished, every later [/answer] for
    that session, with any text and any gateway, replies [(None, True)] and
    changes nothing: no gateway call, no new entry. *)
Theorem answer_finished_is_absorbing llm req app r app' :
  answer llm req app = Replied r app' ->
  (next_message r = None <-> finished r = true) /\
  (exists sd', SESSIONS app' !! session_id req = Some sd' /\ sd_finished sd' = finished r) /\
  (finished r = true ->
   forall llm' a',
     answer llm' (mkAnswerRequest (session_id req) a') app'
     = Replied (mkAnswerResponse None true) app').
Proof.
  intros Hans.
  assert (Hmain : (next_message r = None <-> finished r = true) /\
                  exists sd', SESSIONS app' !! session_id req = Some sd' /\
                              sd_finished sd' = finished r).
  { unfold answer, get_session in Hans.
    destruct (SESSIONS app !! session_id req) as [sd|] eqn:Hsd; [|discriminate Hans].
    destruct (sd_finished sd) eqn:Hfin.
    - injection Hans as <- <-. split; [split; reflexivity|]. exists sd. split; assumption.
    - destruct (orchestrator_step _ _ _) as [[[[st hist] msg] fin] w|e w] eqn:Hstep;
        [|discriminate Hans].
      injection Hans as <- <-. cbn [next_message finished SESSIONS].
      split; [exact (orchestrator_step_message_iff _ _ _ _ _ _ _ _ Hstep)|].
      eexists. split; [apply lookup_insert_eq | reflexivity]. }
  destruct Hmain as [Hshape (sd' & Hsd' & Hfin')].
  split; [exact Hshape|]. split; [exists sd'; split; assumption|].
  intros Hfin llm' a'. unfold answer, get_session. cbn [session_id].
  rewrite Hsd', Hfin', Hfin. reflexivity.
Qed.

Lemma answer_finished_is_absorbing_witness :
  answer failing (mkAnswerRequest "s1" "again") finished_app
  = Replied (mkAnswerResponse None true) finished_app.
Proof.
  refine (proj2 (proj2
    (answer_finished_is_absorbing failing (mkAnswerRequest "s1" "more") finished_app
       (mkAnswerResponse None true) finished_app _)) eq_refl failing "again").
  vm_compute. reflexivity.
Defined.

Lemma step_effect_nonempty w w' :
  step_effect w w' -> qa_pairs (state w) <> [] -> qa_pairs (state w') <> [].
Proof.
  intros Heff Hne.
  destruct Heff as [Hs Hh | H0 Hs Hh | q H0 Hq Hs Hh | a e He Hs Hh | a e main q He Hq Hm Hs Hh];
    rewrite Hs; try exact Hne.
  - cbn [asked qa_pairs]. intros H. apply app_eq_nil in H as [_ H]. discriminate H.
  - intros H. apply (f_equal length) in H. rewrite answered_length in H.
    destruct (qa_pairs (state w)); [contradiction | discriminate H].
  - cbn [asked qa_pairs]. intros H. apply app_eq_nil in H as [_ H]. discriminate H.
Qed.

Lemma step_effect_fields w w' :
  step_effect w w' ->
  role (state w') = role (state w) /\ max_questions (state w') = max_questions (state w).
Proof.
  intros Heff.
  destruct Heff as [Hs Hh | H0 Hs Hh | q H0 Hq Hs Hh | a e He Hs Hh | a e main q He Hq Hm Hs Hh];
    rewrite Hs; try (split; reflexivity);
    destruct (answered_fields a (state w)) as (Hr & Hx & _); split; assumption.
Qed.

Lemma orchestrator_step_finished llm a w st hist msg w' :
  orchestrator_step llm (Some a) w = Returned (st, hist, msg, true) w' ->
  max_questions st <= main_questions_asked st.
Proof.
  rewrite orchestrator_step_answer.
  destruct (last (qa_pairs (state w))); [|discriminate].
  cbv zeta. destruct (llm _ (4 # 10)); [discriminate|].
  destruct (negb _); [discriminate|].
  destruct (Z.geb_spec (main_questions_asked (state (log_call
              (followup_messages (qa_question q) a
                 (all_questions (state (add_history [Msg "user" a]
                    (with_state (answered a (state w)) w))))) (4 # 10)
              (add_history [Msg "user" a] (with_state (answered a (state w)) w)))))
             (max_questions (state (log_call
              (followup_messages (qa_question q) a
                 (all_questions (state (add_history [Msg "user" a]
                    (with_state (answered a (state w)) w))))) (4 # 10)
              (add_history [Msg "user" a] (with_state (answered a (state w)) w))))))
    as [Hge|Hlt].
  - intros [= <- _ _ _]. exact Hge.
  - destruct (llm _ (7 # 10)); discriminate.
Qed.

Lemma orchestrator_step_raise_origin llm a w e w' :
  qa_pairs (state w) <> [] ->
  orchestrator_step llm (Some a) w = Raised e w' ->
  exists msgs t, llm msgs t = inl e.
Proof.
  intros Hne. rewrite orchestrator_step_answer.
  destruct (last (qa_pairs (state w))) as [x|] eqn:He.
  2:{ destruct (qa_pairs (state w)); [contradiction|]. apply last_None in He. discriminate He. }
  cbv zeta. destruct (llm _ (4 # 10)) as [err|reply] eqn:H4.
  { intros [= <- _]. eexists _, _. exact H4. }
  destruct (negb _); [discriminate|].
  destruct (_ >=? _); [discriminate|].
  destruct (llm _ (7 # 10)) as [err|text] eqn:H7; [|discriminate].
  intros [= <- _]. eexists _, _. exact H7.
Qed.


Lemma app_transition_sound app app' :
  app_transition app app' ->
  (forall sid sd, SESSIONS app !! sid = Some sd -> session_sound sd) ->
  forall sid sd, SESSIONS app' !! sid = Some sd -> session_sound sd.
Proof.
  intros [llm sid0 req app0 | llm req app0 | llm req app0] Hall sid sd.
  - (* /start *)
    pose (w0 := mkWorld (new_state (req_role req) (req_max_questions req)) []
                  (app_calls app0) []).
    pose proof (orchestrator_step_first llm w0 eq_refl) as Hfirst. cbv zeta in Hfirst.
    unfold start_interview. fold w0. rewrite Hfirst.
    destruct (llm _ _) as [e|text]; [apply Hall|].
    cbn [app_after SESSIONS]. intros Hl.
    destruct (decide (sid0 = sid)) as [->|Hne];
      [|rewrite lookup_insert_ne in Hl by exact Hne; exact (Hall _ _ Hl)].
    rewrite lookup_insert_eq in Hl. injection Hl as <-.
    unfold session_sound, well_formed. cbn.
    repeat split; try lia; try discriminate.
    constructor; [apply strip_idem | constructor].
  - (* /answer *)
    unfold answer, get_session.
    destruct (SESSIONS app0 !! session_id req) as [sd0|] eqn:Hsd0; [|apply Hall].
    destruct (sd_finished sd0) eqn:Hfin0; [apply Hall|].
    destruct (Hall _ _ Hsd0) as (Hwf0 & Hne0 & _).
    pose proof (orchestrator_step_effect llm (Some (req_answer req))
                  (mkWorld (sd_state sd0) (sd_history sd0) (app_calls app0) [])) as [Heff _].
    cbv zeta in Heff.
    destruct (step_effect_fields _ _ Heff) as [Hr Hx]. cbn [state] in Hr, Hx.
    pose proof (step_effect_well_formed _ _ _ _ Heff Hwf0) as Hwf.
    pose proof (step_effect_nonempty _ _ Heff Hne0) as Hne'.
    destruct (orchestrator_step _ _ _) as [[[[st hist] msg] fin] w|e w] eqn:Hstep;
      cbn [final_world] in *; cbn [app_after SESSIONS]; intros Hl.
    + assert (Hst : st = state w).
      { clear Heff Hwf Hne'. revert Hstep. rewrite orchestrator_step_answer.
        destruct (last _); [|discriminate]. cbv zeta.
        destruct (llm _ (4 # 10)); [discriminate|].
        destruct (negb _); [intros [= <- _ _ _ <-]; reflexivity|].
        destruct (_ >=? _); [intros [= <- _ _ _ <-]; reflexivity|].
        destruct (llm _ (7 # 10)); [discriminate|].
        intros [= <- _ _ _ <-]; reflexivity. }
      subst st.
      destruct (decide (session_id req = sid)) as [Heq|Hneq];
        [|rewrite lookup_insert_ne in Hl by exact Hneq; exact (Hall _ _ Hl)].
      rewrite Heq, lookup_insert_eq in Hl. injection Hl as <-.
      unfold session_sound. cbn [sd_state sd_finished]. rewrite Hr, Hx.
      split; [exact Hwf|]. split; [exact Hne'|].
      intros ->. rewrite <- Hx. exact (orchestrator_step_finished _ _ _ _ _ _ _ Hstep).
    + destruct (decide (session_id req = sid)) as [Heq|Hneq];
        [|rewrite lookup_insert_ne in Hl by exact Hneq; exact (Hall _ _ Hl)].
      rewrite Heq, lookup_insert_eq in Hl. injection Hl as <-.
      unfold session_sound. cbn [sd_state sd_finished]. rewrite Hr, Hx.
      split; [exact Hwf|]. split; [exact Hne'|]. discriminate.
  - (* /feedback *)
    unfold get_feedback, get_session.
    destruct (SESSIONS app0 !! fb_session_id req) as [sd0|] eqn:Hsd0; [|apply Hall].
    rewrite feedback_agent_run.
    destruct (llm _ _); cbn [app_after SESSIONS state history log_call];
      rewrite (session_insert_id _ _ _ Hsd0); apply Hall.
Qed.

Lemma registry_sound cs app :
  rtc app_transition (mkApp ∅ cs) app ->
  forall sid sd, SESSIONS app !! sid = Some sd -> session_sound sd.
Proof.
  revert app.
  apply (rtc_ind_r (R := app_transition)
           (fun app => forall sid sd, SESSIONS app !! sid = Some sd -> session_sound sd)).
  - intros sid sd H. cbn in H. rewrite lookup_empty in H. discriminate H.
  - intros app1 app2 _ Hstep IH. exact (app_transition_sound _ _ Hstep IH).
Qed.

(** X15. In a registry built from an empty one by any requests to
    [/start], [/answer] and [/feedback], with any gateway behaviour and any
    budgets, every stored session has at least one question in [qa_pairs],
    has [main_questions_asked] between 1 and the larger of 1 and
    [max_questions] and at most the number of entries, and, once marked
    finished, has asked exactly that larger number of main questions. *)
Theorem stored_sessions_sound cs app sid sd :
  rtc app_transition (mkApp ∅ cs) app ->
  SESSIONS app !! sid = Some sd ->
  let st := sd_state sd in
  qa_pairs st <> [] /\
  1 <= main_questions_asked st <= Z.max 1 (max_questions st) /\
  main_questions_asked st <= Z.of_nat (length (qa_pairs st)) /\
  (sd_finished sd = true -> main_questions_asked st = Z.max 1 (max_questions st)).
Proof.
  intros Hrun Hsd. cbv zeta.
  destruct (registry_sound cs app Hrun sid sd Hsd) as ((_ & _ & Hm & Hl & Hz & _) & Hne & Hfin).
  assert (Hpos : main_questions_asked (sd_state sd) <> 0)
    by (intros H; apply Hz in H; contradiction).
  split; [exact Hne|]. split; [lia|]. split; [exact Hl|].
  intros Hf. specialize (Hfin Hf). lia.
Qed.

Lemma stored_sessions_sound_witness :
  1 <= main_questions_asked
         (mkState "Software Engineer" 5 1 [QA INTRODUCTION_REQUEST EmptyString])
    <= Z.max 1 5.
Proof.
  refine (proj1 (proj2
    (stored_sessions_sound [] pending_app "s1"
       (mkSession (mkState "Software Engineer" 5 1 [QA INTRODUCTION_REQUEST EmptyString])
          [START_DIRECTIVE; Msg "assistant" INTRODUCTION_REQUEST] false) _ _))).
  - apply rtc_once.
    exact (start_transition (scripted (inr INTRODUCTION_REQUEST) (inr "NONE")) "s1"
             (mkStartRequest "Software Engineer" 5) (mkApp ∅ [])).
  - vm_compute. reflexivity.
Defined.



(** ** The feedback transcript *)

Lemma qa_text_lines_lookup (pairs : list qa) : forall i k e,
  pairs !! k = Some e ->
  qa_text_lines i pairs !! k
  = Some ("Q" +:+ str_of_nat (i + k) +:+ ": " +:+ qa_question e +:+ nl +:+
          "A" +:+ str_of_nat (i + k) +:+ ": " +:+ qa_answer e +:+ nl).
Proof.
  induction pairs as [|x pairs IH]; intros i k e Hk; [discriminate Hk|].
  destruct k as [|k].
  - injection Hk as ->. cbn [qa_text_lines]. rewrite Nat.add_0_r. reflexivity.
  - cbn [qa_text_lines]. change ((?y :: ?l) !! S k) with (l !! k).
    rewrite (IH (S i) k e Hk). replace (S i + k)%nat with (i + S k)%nat by lia. reflexivity.
Qed.

Lemma qa_text_lines_length (pairs : list qa) : forall i,
  length (qa_text_lines i pairs) = length pairs.
Proof. induction pairs as [|x pairs IH]; intros i; [reflexivity|]. cbn. rewrite IH. reflexivity. Qed.

Example feedback_transcript_example :
  PyRepr.join nl (qa_text_lines 1 [QA "Tell me about you." "I am Ada"; QA "Why?" EmptyString])
  = "Q1: Tell me about you." +:+ nl +:+ "A1: I am Ada" +:+ nl +:+ nl +:+
    "Q2: Why?" +:+ nl +:+ "A2: " +:+ nl.
Proof. reflexivity. Qed.

(** X17. [feedback_agent], whether its call succeeds or fails, makes exactly
    one gateway call, at temperature 0.3, with two messages: the system
    prompt [FEEDBACK_SYSTEM_PROMPT], and a user message made of "Role: "
    and the role, two line feeds, "Here are the questions and answers:", two
    line feeds, the transcript, two line feeds and "Now provide feedback as
    per the format.". The transcript is the blocks of the entries of
    [qa_pairs] joined by a line feed: one block per entry, in order and
    numbered from 1, the block of the entry at position [k] (from 0) being
    "Q<k+1>: <question>", a line feed, "A<k+1>: <answer>" and a line feed,
    an unanswered entry showing an empty answer. Nothing is skipped, and for
    an empty [qa_pairs] the transcript is empty. *)
Theorem feedback_transcript_blocks llm (st : InterviewState) (w : World) :
  exists blocks : list string,
    calls (final_world (feedback_agent llm st w))
    = (calls w ++
       [Call [Msg "system" FEEDBACK_SYSTEM_PROMPT;
              Msg "user"
                ("Role: " +:+ role st +:+ nl +:+ nl +:+
                 "Here are the questions and answers:" +:+ nl +:+ nl +:+
                 PyRepr.join nl blocks +:+ nl +:+ nl +:+
                 "Now provide feedback as per the format.")]
          (3 # 10)])%list /\
    length blocks = length (qa_pairs st) /\
    (forall k e,
        qa_pairs st !! k = Some e ->
        blocks !! k
        = Some ("Q" +:+ str_of_nat (S k) +:+ ": " +:+ qa_question e +:+ nl +:+
                "A" +:+ str_of_nat (S k) +:+ ": " +:+ qa_answer e +:+ nl)) /\
    (qa_pairs st = [] -> PyRepr.join nl blocks = EmptyString).
Proof.
  exists (qa_text_lines 1 (qa_pairs st)).
  split; [|split; [apply qa_text_lines_length|split]].
  - rewrite feedback_agent_run. destruct (llm _ _); reflexivity.
  - intros k e Hk. rewrite (qa_text_lines_lookup _ 1 k e Hk). reflexivity.
  - intros ->. reflexivity.
Qed.

(** ** The console interview as a whole *)

Lemma after_capture_run llm (next_round : option string -> M run_status) a w :
  after_capture llm next_round a w =
  match orchestrator_step llm (Some a) w with
  | Raised e w1 => Raised e w1
  | Returned (_, _, bot_msg, fin) w1 =>
      let w2 := if truthy (default EmptyString bot_msg)
                then add_console [said (default EmptyString bot_msg)] w1 else w1 in
      if fin then Returned Done w2
      else next_round (current_question_of (state w2)) w2
  end.
Proof.
  unfold after_capture, mbind, M_bind.
  destruct (orchestrator_step llm (Some a) w) as [[[[st hist] msg] fin] w1|e w1];
    [|reflexivity].
  cbv zeta. destruct (truthy _); destruct fin; reflexivity.
Qed.

Lemma main_loop_hesitant llm cq n u rest w :
  classify u = Hesitant ->
  main_loop llm cq n (u :: rest) w =
  if n + 1 =? 1 then
    main_loop llm cq (n + 1) rest
      (add_console [Read "You: " u; said (reengage_msg_of llm)]
         (log_call timeout_messages (7 # 10) w))
  else if n + 1 =? 2 then
    main_loop llm cq (n + 1) rest
      (add_history [Msg "assistant" (repeat_msg_of cq)]
         (add_console [Read "You: " u; said (repeat_msg_of cq)] w))
  else
    after_capture llm (fun cq' => main_loop llm cq' 0 rest) SKIP_MARKER
      (add_console [Read "You: " u; said SKIP_MESSAGE] w).
Proof.
  intros Hc. apply classify_Hesitant in Hc as [Hh Hpos].
  pose proof (hesitant_not_exit u Hh) as Hexit.
  cbn [main_loop]. unfold mbind at 1, M_bind at 1, input at 1. cbv beta iota.
  rewrite (bool_decide_eq_false_2 _ Hexit), (bool_decide_eq_false_2 _ Hpos), Hh.
  destruct (n + 1 =? 1).
  - unfold mbind, M_bind. rewrite timeout_agent_run.
    unfold interviewer_says, print, log_call, add_console, said.
    cbn [state history calls console]. rewrite <- app_assoc. reflexivity.
  - destruct (n + 1 =? 2).
    + unfold mbind, M_bind, interviewer_says, print, history_append, add_history,
        add_console, said, repeat_msg_of.
      cbn [state history calls console]. rewrite <- app_assoc. reflexivity.
    + unfold mbind at 1, M_bind at 1, interviewer_says, print, add_console, said.
      cbn [state history calls console]. rewrite <- app_assoc. reflexivity.
Qed.

Lemma main_loop_accepts llm cq n u rest w :
  is_hesitation (Some u) = false ->
  lower (strip u) ∉ ["exit"; "quit"; "stop"] ->
  main_loop llm cq n (u :: rest) w =
  after_capture llm (fun cq' => main_loop llm cq' 0 rest) (strip u)
    (add_console [Read "You: " u] w).
Proof.
  intros Hh Hexit. cbn [main_loop]. unfold mbind at 1, M_bind at 1, input at 1.
  cbv beta iota.
  rewrite (bool_decide_eq_false_2 _ Hexit), Hh.
  case_bool_decide; reflexivity.
Qed.

Lemma main_loop_exit llm cq n u rest w :
  lower (strip u) ∈ ["exit"; "quit"; "stop"] ->
  main_loop llm cq n (u :: rest) w =
  Returned Done
    (add_console [Read "You: " u;
                  Printed (nl +:+ "✅ Ending interview early as requested." +:+ nl)] w).
Proof.
  intros Hexit. cbn [main_loop]. unfold mbind, M_bind, input, print.
  rewrite (bool_decide_eq_true_2 _ Hexit). unfold add_console.
  cbn [state history calls console]. rewrite <- app_assoc. reflexivity.
Qed.

(** The three ways an utterance is treated. *)
Lemma utterance_cases (u : string) :
  lower (strip u) ∈ ["exit"; "quit"; "stop"] \/
  classify u = Hesitant \/
  (is_hesitation (Some u) = false /\ lower (strip u) ∉ ["exit"; "quit"; "stop"]).
Proof.
  destruct (decide (lower (strip u) ∈ ["exit"; "quit"; "stop"])) as [He|He]; [left; exact He|].
  right. destruct (is_hesitation (Some u)) eqn:Hh; [left | right; split; [reflexivity|exact He]].
  apply classify_Hesitant. split; [exact Hh|].
  intros Hpos. rewrite is_hesitation_text, (positive_short_not_hesitant _ Hpos) in Hh.
  discriminate Hh.
Qed.

Lemma answer_loop_accept_step llm cq n u rest w :
  is_hesitation (Some u) = false ->
  lower (strip u) ∉ ["exit"; "quit"; "stop"] ->
  answer_loop llm cq n (u :: rest) w
  = Returned (Captured (strip u)) (add_console [Read "You: " u] w).
Proof.
  intros Hh Hexit. cbn [answer_loop]. unfold mbind, M_bind, input.
  rewrite (bool_decide_eq_false_2 _ Hexit), Hh.
  case_bool_decide; reflexivity.
Qed.

Lemma answer_loop_exit_step llm cq n u rest w :
  lower (strip u) ∈ ["exit"; "quit"; "stop"] ->
  answer_loop llm cq n (u :: rest) w =
  Returned Exit
    (add_console [Read "You: " u;
                  Printed (nl +:+ "✅ Ending interview early as requested." +:+ nl)] w).
Proof.
  intros Hexit. cbn [answer_loop]. unfold mbind, M_bind, input, print.
  rewrite (bool_decide_eq_true_2 _ Hexit). unfold add_console.
  cbn [state history calls console]. rewrite <- app_assoc. reflexivity.
Qed.

(** X18. The main loop of [run_console_interview] and its inner answer
    loop agree. Where the answer loop on the utterances typed so far still
    waits, the interview waits in the same world; where it breaks on an exit
    word, the interview goes to the feedback phase from that world; and
    where it waits after [pre] and captures an answer at the next utterance
    [u], the interview hands that answer to the orchestrator in the world
    the answer loop left, and goes on with the utterances after [u], the
    hesitation counter back at 0. *)
Theorem main_loop_follows_answer_loop llm cq :
  (forall inputs n w k w',
      answer_loop llm cq n inputs w = Returned (AwaitingInput k) w' ->
      main_loop llm cq n inputs w = Returned WaitingForInput w') /\
  (forall inputs n w w',
      answer_loop llm cq n inputs w = Returned Exit w' ->
      main_loop llm cq n inputs w = Returned Done w') /\
  (forall pre u post n w k a w1 w2,
      answer_loop llm cq n pre w = Returned (AwaitingInput k) w1 ->
      answer_loop llm cq k [u] w1 = Returned (Captured a) w2 ->
      main_loop llm cq n (pre ++ u :: post) w
      = after_capture llm (fun cq' => main_loop llm cq' 0 post) a w2).
Proof.
  split; [|split].
  - induction inputs as [|u rest IH]; intros n w k w' H.
    { injection H as _ <-. reflexivity. }
    destruct (utterance_cases u) as [He|[Hc|[Hh He]]].
    + rewrite (answer_loop_exit_step _ _ _ _ _ _ He) in H. discriminate H.
    + rewrite (answer_loop_hesitant _ _ _ _ _ _ Hc) in H.
      rewrite (main_loop_hesitant _ _ _ _ _ _ Hc).
      destruct (n + 1 =? 1); [exact (IH _ _ _ _ H)|].
      destruct (n + 1 =? 2); [exact (IH _ _ _ _ H) | discriminate H].
    + rewrite (answer_loop_accept_step _ _ _ _ _ _ Hh He) in H. discriminate H.
  - induction inputs as [|u rest IH]; intros n w w' H; [discriminate H|].
    destruct (utterance_cases u) as [He|[Hc|[Hh He]]].
    + rewrite (answer_loop_exit_step _ _ _ _ _ _ He) in H.
      rewrite (main_loop_exit _ _ _ _ _ _ He). injection H as <-. reflexivity.
    + rewrite (answer_loop_hesitant _ _ _ _ _ _ Hc) in H.
      rewrite (main_loop_hesitant _ _ _ _ _ _ Hc).
      destruct (n + 1 =? 1); [exact (IH _ _ _ H)|].
      destruct (n + 1 =? 2); [exact (IH _ _ _ H) | discriminate H].
    + rewrite (answer_loop_accept_step _ _ _ _ _ _ Hh He) in H. discriminate H.
  - induction pre as [|p pre IH]; intros u post n w k a w1 w2 Hpre Hu.
    + injection Hpre as <- <-. cbn [app].
      destruct (utterance_cases u) as [He|[Hc|[Hh He]]].
      * rewrite (answer_loop_exit_step _ _ _ _ _ _ He) in Hu. discriminate Hu.
      * rewrite (answer_loop_hesitant _ _ _ _ _ _ Hc) in Hu.
        rewrite (main_loop_hesitant _ _ _ _ _ _ Hc).
        destruct (n + 1 =? 1); [discriminate Hu|].
        destruct (n + 1 =? 2); [discriminate Hu|].
        injection Hu as <- <-. reflexivity.
      * rewrite (answer_loop_accept_step _ _ _ _ _ _ Hh He) in Hu.
        rewrite (main_loop_accepts _ _ _ _ _ _ Hh He).
        injection Hu as <- <-. reflexivity.
    + cbn [app].
      destruct (utterance_cases p) as [He|[Hc|[Hh He]]].
      * rewrite (answer_loop_exit_step _ _ _ _ _ _ He) in Hpre. discriminate Hpre.
      * rewrite (answer_loop_hesitant _ _ _ _ _ _ Hc) in Hpre.
        rewrite (main_loop_hesitant _ _ _ _ _ _ Hc).
        destruct (n + 1 =? 1); [exact (IH _ _ _ _ _ _ _ _ Hpre Hu)|].
        destruct (n + 1 =? 2); [exact (IH _ _ _ _ _ _ _ _ Hpre Hu) | discriminate Hpre].
      * rewrite (answer_loop_accept_step _ _ _ _ _ _ Hh He) in Hpre. discriminate Hpre.
Qed.

Lemma reads_app (a b : list event) : reads (a ++ b) = (reads a + reads b)%nat.
Proof.
  induction a as [|[t|p l] a IH]; cbn [app reads]; [reflexivity | exact IH | rewrite IH; reflexivity].
Qed.

Lemma step_effect_length w w' :
  step_effect w w' ->
  (length (qa_pairs (state w)) <= length (qa_pairs (state w')))%nat.
Proof.
  intros Heff.
  destruct Heff as [Hs Hh | H0 Hs Hh | q H0 Hq Hs Hh | a e He Hs Hh | a e main q He Hq Hm Hs Hh];
    rewrite Hs; cbn [asked qa_pairs]; rewrite ?length_app, ?answered_length; cbn [length]; lia.
Qed.

Lemma orchestrator_step_unfinished llm user_answer w st hist msg w' :
  orchestrator_step llm user_answer w = Returned (st, hist, msg, false) w' ->
  length (qa_pairs (state w')) = S (length (qa_pairs (state w))).
Proof.
  assert (Hq : forall main q w1,
            length (qa_pairs (state w1)) = length (qa_pairs (state w)) ->
            length (qa_pairs (state (issue main q w1))) = S (length (qa_pairs (state w)))).
  { intros main q w1 H. cbn [issue with_state state asked qa_pairs].
    rewrite length_app. cbn [add_history state length]. lia. }
  destruct user_answer as [a|].
  - rewrite orchestrator_step_answer.
    destruct (last (qa_pairs (state w))); [|discriminate].
    cbv zeta. destruct (llm _ (4 # 10)); [discriminate|].
    destruct (negb _); [intros [= _ _ _ <-]; apply Hq, answered_length|].
    destruct (_ >=? _); [discriminate|].
    destruct (llm _ (7 # 10)); [discriminate|].
    intros [= _ _ _ <-]; apply Hq, answered_length.
  - destruct (Z.eq_dec (main_questions_asked (state w)) 0) as [H0|Hne].
    + rewrite (orchestrator_step_first llm w H0). cbv zeta.
      destruct (llm _ _); [discriminate|].
      intros [= _ _ _ <-]; apply Hq; reflexivity.
    + rewrite (orchestrator_step_idle llm w Hne). discriminate.
Qed.

Lemma after_capture_reads llm (next_round : option string -> M run_status) a w (n : Z) :
  0 <= n <= 2 ->
  (forall cq w1,
      let w' := final_world (next_round cq w1) in
      Z.of_nat (reads (console w')) + 3 * Z.of_nat (length (qa_pairs (state w1)))
      <= Z.of_nat (reads (console w1)) + 3 + 3 * Z.of_nat (length (qa_pairs (state w'))) /\
      (length (qa_pairs (state w1)) <= length (qa_pairs (state w')))%nat) ->
  let w' := final_world (after_capture llm next_round a w) in
  Z.of_nat (reads (console w')) + n + 3 * Z.of_nat (length (qa_pairs (state w)))
  <= Z.of_nat (reads (console w)) + 2 + 3 * Z.of_nat (length (qa_pairs (state w'))) /\
  (length (qa_pairs (state w)) <= length (qa_pairs (state w')))%nat.
Proof.
  intros Hn Hnext. cbv zeta. rewrite after_capture_run.
  destruct (orchestrator_step_effect llm (Some a) w) as [Heff Hcon]. cbv zeta in Heff, Hcon.
  pose proof (step_effect_length _ _ Heff) as Hlen.
  destruct (orchestrator_step llm (Some a) w) as [[[[st hist] msg] fin] w1|e w1] eqn:Hstep;
    cbn [final_world] in *.
  2:{ rewrite Hcon. split; lia. }
  cbv zeta.
  set (w2 := if truthy (default EmptyString msg)
             then add_console [said (default EmptyString msg)] w1 else w1).
  assert (Hw2 : state w2 = state w1 /\ reads (console w2) = reads (console w)).
  { unfold w2. destruct (truthy _); cbn [add_console state console];
      rewrite ?reads_app, Hcon; cbn [reads said]; split; reflexivity || lia. }
  destruct Hw2 as [Hs2 Hr2].
  destruct fin.
  - cbn [final_world]. rewrite Hs2, Hr2. split; lia.
  - pose proof (orchestrator_step_unfinished _ _ _ _ _ _ _ Hstep) as Hgrow.
    destruct (Hnext (current_question_of (state w2)) w2) as [Hb Hl]. cbv zeta in Hb, Hl.
    rewrite Hs2, Hr2 in *. split; lia.
Qed.

Lemma main_loop_reads llm inputs : forall cq n w,
  0 <= n <= 2 ->
  let w' := final_world (main_loop llm cq n inputs w) in
  Z.of_nat (reads (console w')) + n + 3 * Z.of_nat (length (qa_pairs (state w)))
  <= Z.of_nat (reads (console w)) + 3 + 3 * Z.of_nat (length (qa_pairs (state w'))) /\
  (length (qa_pairs (state w)) <= length (qa_pairs (state w')))%nat.
Proof.
  induction inputs as [|u rest IH]; intros cq n w Hn; cbv zeta.
  { cbn. split; lia. }
  assert (Hnext : forall cq1 w1,
      let w' := final_world ((fun cq' => main_loop llm cq' 0 rest) cq1 w1) in
      Z.of_nat (reads (console w')) + 3 * Z.of_nat (length (qa_pairs (state w1)))
      <= Z.of_nat (reads (console w1)) + 3 + 3 * Z.of_nat (length (qa_pairs (state w'))) /\
      (length (qa_pairs (state w1)) <= length (qa_pairs (state w')))%nat).
  { intros cq1 w1. cbv zeta. destruct (IH cq1 0 w1 ltac:(lia)) as [Hb Hl].
    cbv zeta in Hb, Hl. split; lia. }
  destruct (utterance_cases u) as [He|[Hc|[Hh He]]].
  - rewrite (main_loop_exit _ _ _ _ _ _ He). cbn [final_world add_console state console].
    rewrite reads_app. cbn [reads]. split; lia.
  - rewrite (main_loop_hesitant _ _ _ _ _ _ Hc).
    destruct (Z.eqb_spec (n + 1) 1) as [H1|H1].
    + match goal with
      | |- context [main_loop llm cq (n + 1) rest ?w1] =>
          destruct (IH cq (n + 1) w1 ltac:(lia)) as [Hb Hl]; cbv zeta in Hb, Hl;
          cbn [add_console log_call state console] in Hb, Hl;
          rewrite reads_app in Hb; cbn [reads said] in Hb
      end.
      split; lia.
    + destruct (Z.eqb_spec (n + 1) 2) as [H2|H2].
      * match goal with
        | |- context [main_loop llm cq (n + 1) rest ?w1] =>
            destruct (IH cq (n + 1) w1 ltac:(lia)) as [Hb Hl]; cbv zeta in Hb, Hl;
            cbn [add_console add_history state console] in Hb, Hl;
            rewrite reads_app in Hb; cbn [reads said] in Hb
        end.
        split; lia.
      * match goal with
        | |- context [after_capture llm ?k ?a ?w1] =>
            destruct (after_capture_reads llm k a w1 n Hn Hnext) as [Hb Hl];
            cbv zeta in Hb, Hl; cbn [add_console state console] in Hb, Hl;
            rewrite reads_app in Hb; cbn [reads said] in Hb
        end.
        split; lia.
  - rewrite (main_loop_accepts _ _ _ _ _ _ Hh He).
    match goal with
    | |- context [after_capture llm ?k ?a ?w1] =>
        destruct (after_capture_reads llm k a w1 n Hn Hnext) as [Hb Hl];
        cbv zeta in Hb, Hl; cbn [add_console state console] in Hb, Hl;
        rewrite reads_app in Hb; cbn [reads] in Hb
    end.
    split; lia.
Qed.

Lemma bind_run {A B} (m : M A) (f : A -> M B) w :
  (m ≫= f) w = match m w with Returned a w' => f a w' | Raised e w' => Raised e w' end.
Proof. reflexivity. Qed.

Lemma run_console_interview_run llm role0 maxq inputs w :
  run_console_interview llm role0 maxq inputs w =
  let msgs := interviewer_messages (new_state role0 maxq) [START_DIRECTIVE] in
  match llm msgs (7 # 10) with
  | inl e =>
      Raised e
        (log_call msgs (7 # 10)
           (add_history [START_DIRECTIVE]
              (add_console
                 [Printed (nl +:+ "🚀 Starting multi-agent mock interview for role: " +:+ role0);
                  Printed ("(Type 'exit' anytime to stop)" +:+ nl)]
                 (mkWorld (new_state role0 maxq) [] (calls w) (console w)))))
  | inr text =>
      match main_loop llm (Some (strip text)) 0 inputs
              (console_start role0 maxq (strip text) w) with
      | Raised e w' => Raised e w'
      | Returned WaitingForInput w' => Returned None w'
      | Returned Done w' => feedback_phase llm w'
      end
  end.
Proof.
  unfold run_console_interview.
  rewrite bind_run. unfold new_interview at 1. cbv beta iota.
  rewrite bind_run. unfold print at 1. cbv beta iota. cbn [state history calls console].
  rewrite bind_run. unfold print at 1. cbv beta iota. cbn [state history calls console].
  rewrite bind_run.
  match goal with
  | |- context [orchestrator_step llm None ?w0] =>
      rewrite (orchestrator_step_first llm w0 eq_refl)
  end.
  cbv zeta. cbn [add_history state history calls console app].
  fold START_DIRECTIVE.
  destruct (llm _ (7 # 10)) as [e|text].
  { unfold add_console, add_history, log_call. cbn [state history calls console app].
    rewrite <- app_assoc. reflexivity. }
  cbv beta iota. cbn [default from_option id].
  match goal with
  | |- (_ ≫= _) ?wx = _ =>
      replace wx with
        (issue true (strip text)
           (log_call (interviewer_messages (new_state role0 maxq) [START_DIRECTIVE]) (7 # 10)
              (add_history [START_DIRECTIVE]
                 (add_console
                    [Printed (nl +:+ "🚀 Starting multi-agent mock interview for role: "
                              +:+ role0);
                     Printed ("(Type 'exit' anytime to stop)" +:+ nl)]
                    (mkWorld (new_state role0 maxq) [] (calls w) (console w))))))
        by (unfold add_console, add_history; cbn [state history calls console app];
            rewrite <- app_assoc; reflexivity)
  end.
  rewrite bind_run.
  assert (Hprint :
    forall w1,
      (if truthy (strip text) then print ("Interviewer: " +:+ strip text +:+ nl) else mret tt) w1
      = Returned tt
          (if truthy (strip text)
           then add_console [Printed ("Interviewer: " +:+ strip text +:+ nl)] w1 else w1)).
  { intros w1. destruct (truthy (strip text)); reflexivity. }
  rewrite Hprint. clear Hprint. cbv beta iota.
  fold (console_start role0 maxq (strip text) w).
  rewrite bind_run. rewrite bind_run. unfold get_state at 1. cbv beta iota.
  assert (Hcq : current_question_of (state (console_start role0 maxq (strip text) w))
                = Some (strip text)).
  { unfold console_start. destruct (truthy (strip text)); reflexivity. }
  rewrite Hcq.
  destruct (main_loop llm (Some (strip text)) 0 inputs _) as [[|] w'|e w']; [|reflexivity..].
  unfold feedback_phase.
  rewrite bind_run. unfold print at 1. cbv beta iota.
  rewrite bind_run. unfold get_state at 1. cbv beta iota.
  rewrite bind_run, feedback_agent_run.
  cbn [state history calls console add_console log_call].
  destruct (llm _ (3 # 10)) as [e|fb]; [reflexivity|].
  rewrite strip_idem. unfold print, mbind, M_bind, mret, M_ret, add_console.
  cbn [state history calls console]. rewrite <- app_assoc. reflexivity.
Qed.

Lemma orchestrator_step_answer_state llm a w :
  let st' := state (final_world (orchestrator_step llm (Some a) w)) in
  (qa_pairs (state w) = [] /\ st' = state w) \/
  (exists e, last (qa_pairs (state w)) = Some e /\
     (st' = answered a (state w) \/
      exists main q, st' = asked main q (answered a (state w)))).
Proof.
  cbv zeta. rewrite orchestrator_step_answer.
  destruct (last (qa_pairs (state w))) as [e|] eqn:He.
  2:{ left. split; [|reflexivity]. destruct (qa_pairs (state w)); [reflexivity|].
      apply last_None in He. discriminate He. }
  right. exists e. split; [reflexivity|]. cbv zeta.
  destruct (llm _ (4 # 10)); [left; reflexivity|].
  destruct (negb _); [right; eexists _, _; reflexivity|].
  destruct (_ >=? _); [left; reflexivity|].
  destruct (llm _ (7 # 10)); [left; reflexivity | right; eexists _, _; reflexivity].
Qed.

Lemma insert_last_removelast {A} (l : list A) (e x : A) :
  last l = Some e -> <[ (length l - 1)%nat := x ]> l = (removelast l ++ [x])%list.
Proof.
  induction l as [|y l IH]; [discriminate|]. intros He.
  destruct l as [|z l]; [reflexivity|].
  cbn [length]. replace (S (S (length l)) - 1)%nat with (S (length (z :: l) - 1))
    by (cbn [length]; lia).
  change (removelast (y :: z :: l)) with (y :: removelast (z :: l)).
  cbn [list_insert insert app]. f_equal. apply IH. exact He.
Qed.

Lemma answers_usable_step llm a w :
  is_hesitation (Some a) = false ->
  answers_usable (state w) ->
  answers_usable (state (final_world (orchestrator_step llm (Some a) w))).
Proof.
  intros Ha [Hall Hlast].
  destruct (orchestrator_step_answer_state llm a w) as [[_ ->]|(e & He & Hst)];
    [split; assumption|].
  assert (Hqa : qa_pairs (answered a (state w))
                = (removelast (qa_pairs (state w)) ++ [QA (qa_question e) a])%list).
  { unfold answered. rewrite He. cbn [qa_pairs]. apply (insert_last_removelast _ e), He. }
  destruct Hst as [->|(main & q & ->)].
  - unfold answers_usable. rewrite Hqa, removelast_last, last_snoc.
    split; [exact Hall|]. intros e' [= <-]. right. exact Ha.
  - unfold answers_usable. cbn [asked qa_pairs]. rewrite removelast_last, last_snoc, Hqa.
    split; [|intros e' [= <-]; left; reflexivity].
    apply Forall_app. split; [exact Hall|]. constructor; [exact Ha | constructor].
Qed.

Lemma main_loop_state_invariant llm (P : InterviewState -> Prop) :
  (forall w a, P (state w) -> is_hesitation (Some a) = false ->
               P (state (final_world (orchestrator_step llm (Some a) w)))) ->
  forall inputs cq n w,
    P (state w) -> P (state (final_world (main_loop llm cq n inputs w))).
Proof.
  intros Hstep.
  assert (Hcap : forall (next_round : option string -> M run_status) a w,
            (forall cq w1, P (state w1) -> P (state (final_world (next_round cq w1)))) ->
            is_hesitation (Some a) = false -> P (state w) ->
            P (state (final_world (after_capture llm next_round a w)))).
  { intros next_round a w Hnext Ha Hw. rewrite after_capture_run.
    specialize (Hstep w a Hw Ha).
    destruct (orchestrator_step llm (Some a) w) as [[[[st hist] msg] fin] w1|e w1];
      cbn [final_world] in *; [|exact Hstep].
    cbv zeta.
    assert (Hw2 : P (state (if truthy (default EmptyString msg)
                            then add_console [said (default EmptyString msg)] w1 else w1)))
      by (destruct (truthy _); exact Hstep).
    destruct fin; [exact Hw2 | apply Hnext, Hw2]. }
  induction inputs as [|u rest IH]; intros cq n w Hw; [exact Hw|].
  destruct (utterance_cases u) as [He|[Hc|[Hh He]]].
  - rewrite (main_loop_exit _ _ _ _ _ _ He). exact Hw.
  - rewrite (main_loop_hesitant _ _ _ _ _ _ Hc).
    destruct (n + 1 =? 1); [apply IH; exact Hw|].
    destruct (n + 1 =? 2); [apply IH; exact Hw|].
    apply Hcap; [intros cq1 w1; apply IH | reflexivity | exact Hw].
  - rewrite (main_loop_accepts _ _ _ _ _ _ Hh He).
    apply Hcap; [intros cq1 w1; apply IH | rewrite is_hesitation_strip; exact Hh | exact Hw].
Qed.

Lemma console_start_facts role0 maxq q w :
  state (console_start role0 maxq q w) = mkState role0 maxq 1 [QA q EmptyString] /\
  reads (console (console_start role0 maxq q w)) = reads (console w).
Proof.
  unfold console_start. cbv zeta.
  destruct (truthy q); cbn [add_console issue with_state add_history log_call state console];
    rewrite ?reads_app; cbn [reads]; split; reflexivity || lia.
Qed.

Lemma feedback_phase_facts llm w :
  state (final_world (feedback_phase llm w)) = state w /\
  reads (console (final_world (feedback_phase llm w))) = reads (console w).
Proof.
  unfold feedback_phase. cbv zeta.
  destruct (llm _ _); cbn [final_world add_console log_call state console];
    rewrite ?reads_app; cbn [reads]; split; reflexivity || lia.
Qed.

(** X19. Whatever is typed and whatever the gateway does,
    [run_console_interview] reads at most three utterances per question it
    has asked: the number of [input] calls never exceeds three times the
    number of entries of [qa_pairs]. *)
Theorem console_reads_bounded llm (role0 : string) (maxq : Z) (inputs : list string) w :
  let w' := final_world (run_console_interview llm role0 maxq inputs w) in
  (reads (console w') <= reads (console w) + 3 * length (qa_pairs (state w')))%nat.
Proof.
  cbv zeta. rewrite run_console_interview_run. cbv zeta.
  destruct (llm _ (7 # 10)) as [e|text].
  { cbn [final_world log_call add_history add_console state console].
    rewrite !reads_app. cbn [reads]. lia. }
  destruct (console_start_facts role0 maxq (strip text) w) as [Hst Hrd].
  destruct (main_loop_reads llm inputs (Some (strip text)) 0
              (console_start role0 maxq (strip text) w) ltac:(lia)) as [Hb _].
  cbv zeta in Hb. rewrite Hst, Hrd in Hb. cbn [qa_pairs length] in Hb.
  destruct (main_loop llm (Some (strip text)) 0 inputs _) as [[|] w'|e w'];
    cbn [final_world] in *; [|lia..].
  destruct (feedback_phase_facts llm w') as [-> ->]. lia.
Qed.

(** X20. Whatever is typed and whatever the gateway does, the interview
    state that [run_console_interview] leaves (at the end, while waiting
    for input, or when a gateway call raised) is sound: [role] and
    [max_questions] are the arguments, [main_questions_asked] is between 0
    and the larger of 1 and [max_questions] and at most the number of
    entries; every entry before the last has an answer that [is_hesitation]
    does not flag (a typed answer or the skip marker, never an empty one),
    and the last entry has such an answer or none yet. *)
Theorem console_state_sound llm (role0 : string) (maxq : Z) (inputs : list string) w :
  let st := state (final_world (run_console_interview llm role0 maxq inputs w)) in
  role st = role0 /\ max_questions st = maxq /\
  0 <= main_questions_asked st <= Z.max 1 maxq /\
  main_questions_asked st <= Z.of_nat (length (qa_pairs st)) /\
  Forall (fun e => is_hesitation (Some (qa_answer e)) = false) (removelast (qa_pairs st)) /\
  (forall e, last (qa_pairs st) = Some e ->
     qa_answer e = EmptyString \/ is_hesitation (Some (qa_answer e)) = false).
Proof.
  cbv zeta.
  assert (Hgoal : well_formed role0 maxq
                    (state (final_world (run_console_interview llm role0 maxq inputs w))) /\
                  answers_usable
                    (state (final_world (run_console_interview llm role0 maxq inputs w)))).
  { rewrite run_console_interview_run. cbv zeta.
    destruct (llm _ (7 # 10)) as [e|text].
    { cbn [final_world log_call add_history add_console state].
      split; [unfold well_formed; cbn; repeat split; try lia; try reflexivity; constructor|].
      split; [constructor | discriminate]. }
    destruct (console_start_facts role0 maxq (strip text) w) as [Hst _].
    assert (Hinv : well_formed role0 maxq
              (state (final_world (main_loop llm (Some (strip text)) 0 inputs
                                     (console_start role0 maxq (strip text) w)))) /\
            answers_usable
              (state (final_world (main_loop llm (Some (strip text)) 0 inputs
                                     (console_start role0 maxq (strip text) w))))).
    { apply (main_loop_state_invariant llm
               (fun st => well_formed role0 maxq st /\ answers_usable st)).
      - intros w1 a [Hwf Hus] Ha. split.
        + apply (step_effect_well_formed _ _ w1); [apply orchestrator_step_effect | exact Hwf].
        + apply answers_usable_step; assumption.
      - rewrite Hst. split.
        + unfold well_formed. cbn. repeat split; try lia; try discriminate.
          constructor; [apply strip_idem | constructor].
        + split; [constructor|]. intros e [= <-]. left. reflexivity. }
    destruct (main_loop llm (Some (strip text)) 0 inputs _) as [[|] w'|e w'];
      cbn [final_world] in *; [|exact Hinv..].
    destruct (feedback_phase_facts llm w') as [-> _]. exact Hinv. }
  destruct Hgoal as [(Hr & Hx & Hm & Hl & _ & _) [Hall Hlast]].
  repeat split; try assumption; lia.
Qed.

(** X21. When [run_console_interview] returns a feedback text, that text
    is the stripped reply of the gateway to the transcript of the final
    interview state; the feedback call is the last gateway call made and
    the text is the last thing printed. *)
Theorem console_feedback_last llm (role0 : string) (maxq : Z) (inputs : list string) w fb w' :
  run_console_interview llm role0 maxq inputs w = Returned (Some fb) w' ->
  (exists text, llm (feedback_messages (state w')) (3 # 10) = inr text /\ fb = strip text) /\
  last (calls w') = Some (Call (feedback_messages (state w')) (3 # 10)) /\
  last (console w') = Some (Printed fb).
Proof.
  rewrite run_console_interview_run. cbv zeta.
  destruct (llm _ (7 # 10)) as [e|text]; [discriminate|].
  destruct (main_loop llm (Some (strip text)) 0 inputs _) as [[|] w1|e w1]; [|discriminate..].
  unfold feedback_phase. cbv zeta.
  destruct (llm (feedback_messages (state w1)) (3 # 10)) as [e|reply] eqn:Hfb; [discriminate|].
  intros [= <- <-]. cbn [add_console log_call state calls console].
  split; [exists reply; split; [exact Hfb | reflexivity]|].
  split; [apply last_snoc|].
  rewrite last_app. reflexivity.
Qed.

Lemma console_feedback_last_witness :
  exists w',
    run_console_interview (scripted (inr "  Well done. ") (inr "NONE")) "Software Engineer" 1
      ["exit"] (initial_world "x" 0)
    = Returned (Some "Well done.") w' /\
    last (console w') = Some (Printed "Well done.").
Proof.
  pose (llm := scripted (inr "  Well done. ") (inr "NONE")).
  pose (w' := final_world (run_console_interview llm "Software Engineer" 1 ["exit"]
                             (initial_world "x" 0))).
  assert (H : run_console_interview llm "Software Engineer" 1 ["exit"] (initial_world "x" 0)
              = Returned (Some "Well done.") w') by (vm_compute; reflexivity).
  exists w'. split; [exact H|].
  exact (proj2 (proj2 (console_feedback_last llm "Software Engineer" 1 ["exit"]
                         (initial_world "x" 0) "Well done." w' H))).
Defined.

(** ** Gateway calls of one step *)

(** X22. One orchestrator step makes at most two gateway calls, in a fixed
    order: nothing; or the follow-up call (temperature 0.4) alone; or the
    follow-up call and then the call for the next main question
    (temperature 0.7); or, without an answer, the call for the first
    question alone. A step that is given an answer and makes any call makes
    the follow-up call first, on the pending question and that answer. *)
Theorem orchestrator_step_calls llm user_answer w :
  exists cs,
    calls (final_world (orchestrator_step llm user_answer w)) = (calls w ++ cs)%list /\
    (map call_temperature cs = [] \/
     (user_answer <> None /\ map call_temperature cs = [(4 # 10)%Q]) \/
     (user_answer <> None /\ map call_temperature cs = [(4 # 10)%Q; (7 # 10)%Q]) \/
     (user_answer = None /\ map call_temperature cs = [(7 # 10)%Q])) /\
    (forall a c, user_answer = Some a -> head cs = Some c ->
       exists e, last (qa_pairs (state w)) = Some e /\
                 c = Call (followup_messages (qa_question e) a
                             (all_questions (answered a (state w)))) (4 # 10)).
Proof.
  destruct user_answer as [a|].
  - rewrite orchestrator_step_answer.
    destruct (last (qa_pairs (state w))) as [e|] eqn:He.
    2:{ exists []. rewrite app_nil_r. split; [reflexivity|]. split; [left; reflexivity|].
        intros a' c _ H. discriminate H. }
    cbv zeta.
    assert (Hhead : forall cs' (a' : string) c,
              Some a = Some a' ->
              head (Call (followup_messages (qa_question e) a
                            (all_questions (answered a (state w)))) (4 # 10) :: cs') = Some c ->
              exists e', Some e = Some e' /\
                c = Call (followup_messages (qa_question e') a'
                            (all_questions (answered a' (state w)))) (4 # 10)).
    { intros cs' a' c [= <-] [= <-]. exists e. split; reflexivity. }
    destruct (llm _ (4 # 10)) as [err|reply].
    { eexists [_]. split; [reflexivity|].
      split; [right; left; split; [discriminate | reflexivity]|]. apply Hhead. }
    destruct (negb _).
    { eexists [_]. split; [reflexivity|].
      split; [right; left; split; [discriminate | reflexivity]|]. apply Hhead. }
    destruct (_ >=? _).
    { eexists [_]. split; [reflexivity|].
      split; [right; left; split; [discriminate | reflexivity]|]. apply Hhead. }
    destruct (llm _ (7 # 10)) as [err|text].
    + eexists [_; _]. split; [cbn; rewrite <- app_assoc; reflexivity|].
      split; [right; right; left; split; [discriminate | reflexivity]|]. apply Hhead.
    + eexists [_; _]. split; [cbn; rewrite <- app_assoc; reflexivity|].
      split; [right; right; left; split; [discriminate | reflexivity]|]. apply Hhead.
  - destruct (Z.eq_dec (main_questions_asked (state w)) 0) as [H0|Hne].
    + rewrite (orchestrator_step_first llm w H0). cbv zeta.
      destruct (llm _ _) as [err|text]; eexists [_]; (split; [reflexivity|]);
        (split; [right; right; right; split; reflexivity|]); intros a c H; discriminate H.
    + rewrite (orchestrator_step_idle llm w Hne). exists []. rewrite app_nil_r.
      split; [reflexivity|]. split; [left; reflexivity|]. intros a c H. discriminate H.
Qed.
